(** * OPAL: a shallow embedding of the evaluation core

    The development follows the Python sources module by module:
    [parser] (parser.py), [keywords] (keywords.py), [datatypes]
    (datatypes.py).  The modules the sources import but which are not part of
    the tree ([environment], [evaluate], [config]) are modelled from the
    written specification, or taken as parameters.

    Python values are one inductive type; a computation of the interpreter is
    a function from the interpreter state to an outcome (a value or a raised
    exception) and the next state. *)

From Stdlib Require Import ZArith String Ascii List Floats Lia.
From stdpp Require Import gmap strings list pretty.

Set Warnings "-register-all".
Open Scope string_scope.
Open Scope list_scope.
Open Scope stdpp_scope.

(** ** Python values *)

(** The objects the interpreter manipulates.  Parsed expressions and run-time
    values share one universe, as in the sources: atoms ([int], [float],
    [bool], [str]), lists, the three Closable classes with the attributes
    their constructors set, [None], and the exception class [ValueError]
    (which [keywords.globals] hands out as a value). *)
Inductive value : Type :=
| VNone
| VBool (b : bool)
| VInt (z : Z)
| VFloat (x : float)
| VStr (s : string)
| VList (l : list value)
| VFunction (type : string) (name parameters body : value) (id : string)
| VTemplate (name parameters body : value) (id : string) (init : value)
| VInstance (name parameters body : value) (id : string)
| VValueError.

(** ** Exceptions and outcomes *)

(** Exception classes: the five kinds of the specification's taxonomy first,
    then the other built-in classes the modelled code can raise. *)
Inductive exn_kind : Type :=
| SyntaxError | NameError | ArityError | TypeError | IOError
| IndexError | KeyError | ValueError | RecursionError.

(** A raised exception.  [detail] is the message when the sources build it
    (an f-string in a [raise]) and [None] when the host interpreter words it. *)
Record exn : Type := Raised { kind : exn_kind; detail : option string }.

Inductive outcome (A : Type) : Type :=
| Ok (a : A)
| Err (e : exn).
Arguments Ok {A} a.
Arguments Err {A} e.

Definition taxonomy : list exn_kind :=
  [SyntaxError; NameError; ArityError; TypeError; IOError].

Definition exn_kind_eqb (a b : exn_kind) : bool :=
  match a, b with
  | SyntaxError, SyntaxError | NameError, NameError | ArityError, ArityError
  | TypeError, TypeError | IOError, IOError | IndexError, IndexError
  | KeyError, KeyError | ValueError, ValueError
  | RecursionError, RecursionError => true
  | _, _ => false
  end.

Definition in_taxonomy (k : exn_kind) : bool := existsb (exn_kind_eqb k) taxonomy.

(** ** Built-in operations of the host language *)

(** Built-ins of the host language whose results the model does not compute:
    [int(s)] and [float(s)] on a numeric token, [str(v)] on an object that is
    neither a string nor a Closable, and the values [random.randint(0, 10**15)]
    returns, in the order of the calls. *)
Class Host : Type := {
  py_int : string -> outcome Z;
  py_float : string -> float;
  py_str : value -> string;
  randint : nat -> Z }.

Module py.

(** Truth value testing: [None], [False], zero, the empty string and the empty
    list are false; every other object of the model is true (the Closable
    classes define neither [__bool__] nor [__len__]). *)
Definition truthy (v : value) : bool :=
  match v with
  | VNone => false
  | VBool b => b
  | VInt z => negb (z =? 0)%Z
  | VFloat x => negb (PrimFloat.eqb x 0%float)
  | VStr s => negb (String.eqb s "")
  | VList l => match l with [] => false | _ :: _ => true end
  | _ => true
  end.

(** [v == s] for a string literal [s]. *)
Definition is_str (v : value) (s : string) : bool :=
  match v with VStr s' => String.eqb s' s | _ => false end.

(** [isinstance(v, list)] *)
Definition is_list (v : value) : bool :=
  match v with VList _ => true | _ => false end.

(** The exact comparison of a float with an integer. *)
Definition float_eq_Z (x : float) (z : Z) : bool :=
  match Prim2SF x with
  | S754_zero _ => (z =? 0)%Z
  | S754_finite sg m e =>
      let a := if sg then Z.neg m else Z.pos m in
      if (0 <=? e)%Z then (a * 2 ^ e =? z)%Z else (a =? z * 2 ^ (- e))%Z
  | _ => false
  end.

(** [a == b].  Numbers compare by value across [bool], [int] and [float];
    strings and lists structurally; the Closable classes define no [__eq__],
    so two of them are equal when they are the same object, which the model
    tells by their identifier. *)
Fixpoint eqb (a b : value) : bool :=
  match a, b with
  | VNone, VNone => true
  | VBool x, VBool y => Bool.eqb x y
  | VBool x, VInt y | VInt y, VBool x => (Z.b2z x =? y)%Z
  | VBool x, VFloat y | VFloat y, VBool x => float_eq_Z y (Z.b2z x)
  | VInt x, VInt y => (x =? y)%Z
  | VInt x, VFloat y | VFloat y, VInt x => float_eq_Z y x
  | VFloat x, VFloat y => PrimFloat.eqb x y
  | VStr x, VStr y => String.eqb x y
  | VList x, VList y =>
      (fix eqb_list (x y : list value) : bool :=
         match x, y with
         | [], [] => true
         | u :: x', v :: y' => eqb u v && eqb_list x' y'
         | _, _ => false
         end) x y
  | VFunction _ _ _ _ i, VFunction _ _ _ _ j
  | VTemplate _ _ _ i _, VTemplate _ _ _ j _
  | VInstance _ _ _ i, VInstance _ _ _ j => String.eqb i j
  | VValueError, VValueError => true
  | _, _ => false
  end.

(** Lists are the only unhashable objects of the model. *)
Definition hashable (v : value) : bool := negb (is_list v).

(** [v[i]] for a literal index [i >= 0]. *)
Definition getitem (v : value) (i : nat) : outcome value :=
  match v with
  | VList l =>
      match l !! i with
      | Some x => Ok x
      | None => Err (Raised IndexError None)
      end
  | VStr s =>
      match String.get i s with
      | Some c => Ok (VStr (String c EmptyString))
      | None => Err (Raised IndexError None)
      end
  | _ => Err (Raised TypeError None)
  end.

(** [v[i:]] for a literal index [i >= 0]; slicing never goes out of range. *)
Definition slice_from (v : value) (i : nat) : outcome value :=
  match v with
  | VList l => Ok (VList (drop i l))
  | VStr s => Ok (VStr (String.substring i (String.length s - i) s))
  | _ => Err (Raised TypeError None)
  end.

(** [len(v)] *)
Definition len (v : value) : outcome nat :=
  match v with
  | VList l => Ok (length l)
  | VStr s => Ok (String.length s)
  | _ => Err (Raised TypeError None)
  end.

(** An index object as an integer: an [int], or a [bool], which is one. *)
Definition index (i : value) : outcome Z :=
  match i with
  | VInt z => Ok z
  | VBool b => Ok (Z.b2z b)
  | _ => Err (Raised TypeError None)
  end.

(** [v[i]] for an index object [i]: a negative index counts from the end. *)
Definition subscript (v i : value) : outcome value :=
  match len v, index i with
  | Ok n, Ok z =>
      let z' := if (z <? 0)%Z then (z + Z.of_nat n)%Z else z in
      if (z' <? 0)%Z then Err (Raised IndexError None)
      else getitem v (Z.to_nat z')
  | Err e, _ | _, Err e => Err e
  end.

(** The elements [for x in v] visits: those of a list, the characters of a
    string. *)
Definition iter (v : value) : outcome (list value) :=
  match v with
  | VList l => Ok l
  | VStr s => Ok (map (fun c => VStr (String c EmptyString)) (list_ascii_of_string s))
  | _ => Err (Raised TypeError None)
  end.

(** [str(v)]: a string is itself, a Closable prints through the [__str__] of
    datatypes.py, [f"<{self.type} {self.name}>"]; the rest is the host's. *)
Fixpoint str `{Host} (v : value) : string :=
  match v with
  | VStr s => s
  | VFunction type name _ _ _ => "<" +:+ type +:+ " " +:+ str name +:+ ">"
  | VTemplate name _ _ _ _ => "<template " +:+ str name +:+ ">"
  | VInstance name _ _ _ => "<instance " +:+ str name +:+ ">"
  | _ => py_str v
  end.

(** [s.endswith(c)] and [s.removesuffix(c)] for a one-character [c]. *)
Definition endswith (s : string) (c : ascii) : bool :=
  match rev (list_ascii_of_string s) with
  | c' :: _ => Ascii.eqb c' c
  | [] => false
  end.

Definition removesuffix (s : string) (c : ascii) : string :=
  match rev (list_ascii_of_string s) with
  | c' :: r => if Ascii.eqb c' c then string_of_list_ascii (rev r) else s
  | [] => s
  end.

(** [sep.join(l)] *)
Fixpoint join (sep : string) (l : list string) : string :=
  match l with
  | [] => ""
  | [x] => x
  | x :: l' => x +:+ sep +:+ join sep l'
  end.

(** A [dict]: insertion-ordered; assigning to a key that is present replaces
    the value and keeps the key and its position. *)
Abbreviation dict := (list (value * value)).

Fixpoint dict_get (d : dict) (k : value) : option value :=
  match d with
  | [] => None
  | (k', v) :: d' => if eqb k' k then Some v else dict_get d' k
  end.

Fixpoint dict_put (d : dict) (k v : value) : dict :=
  match d with
  | [] => [(k, v)]
  | (k', v') :: d' => if eqb k' k then (k', v) :: d' else (k', v') :: dict_put d' k v
  end.

(** [d[k] = v] *)
Definition dict_set (d : dict) (k v : value) : outcome dict :=
  if hashable k then Ok (dict_put d k v) else Err (Raised TypeError None).

(** [d.get(k, default)] *)
Definition dict_get_default (d : dict) (k dflt : value) : outcome value :=
  if hashable k then Ok (default dflt (dict_get d k))
  else Err (Raised TypeError None).

End py.

(** ** Interpreter state and computations *)

Module config.

(** The mutable globals of [config]: the active environment [ENV], the closure
    registry [CLOSURES] (identifier to environment), the global-variable store
    [GLOBALS], and the number of random identifier tags drawn so far.  An
    environment is its sequence of (name, value) bindings, oldest first. *)
Record state : Type := State {
  ENV : list (value * value);
  CLOSURES : gmap string (list (value * value));
  GLOBALS : py.dict;
  draws : nat }.

Definition with_ENV (e : list (value * value)) (s : state) : state :=
  State e (CLOSURES s) (GLOBALS s) (draws s).

Definition with_CLOSURES (c : gmap string (list (value * value))) (s : state) : state :=
  State (ENV s) c (GLOBALS s) (draws s).

Definition with_GLOBALS (g : py.dict) (s : state) : state :=
  State (ENV s) (CLOSURES s) g (draws s).

Definition with_draws (n : nat) (s : state) : state :=
  State (ENV s) (CLOSURES s) (GLOBALS s) n.

End config.
Export config.

(** A computation: runs from a state, ends with a value or a raised exception,
    and leaves a state behind in both cases (an exception does not roll
    anything back). *)
Definition M (A : Type) : Type := state -> outcome A * state.

Definition ret {A} (a : A) : M A := fun s => (Ok a, s).

Definition raise {A} (e : exn) : M A := fun s => (Err e, s).

Definition bind {A B} (m : M A) (k : A -> M B) : M B :=
  fun s =>
    match m s with
    | (Ok a, s') => k a s'
    | (Err e, s') => (Err e, s')
    end.

(** A pure outcome as a computation. *)
Definition lift {A} (o : outcome A) : M A := fun s => (o, s).

(** [try: m finally: fin]: [fin] runs on both exits of [m]; the outcome is
    that of [m] unless [fin] itself raises. *)
Definition try_finally {A} (m : M A) (fin : M unit) : M A :=
  fun s =>
    let (r, s1) := m s in
    match fin s1 with
    | (Ok _, s2) => (r, s2)
    | (Err e, s2) => (Err e, s2)
    end.

Definition modify (f : state -> state) : M unit := fun s => (Ok tt, f s).

Definition obind {A B} (o : outcome A) (k : A -> outcome B) : outcome B :=
  match o with
  | Ok a => k a
  | Err e => Err e
  end.

Declare Scope opal_scope.
Delimit Scope opal_scope with opal.
Notation "'let!' x ':=' m 'in' k" := (bind m (fun x => k))
  (at level 10, x name, m at level 100, k at level 200, only parsing) : opal_scope.
Notation "'do!' m 'in' k" := (bind m (fun _ => k))
  (at level 10, m at level 100, k at level 200, only parsing) : opal_scope.
Notation "'let?' x ':=' o 'in' k" := (obind o (fun x => k))
  (at level 10, x name, o at level 100, k at level 200, only parsing) : opal_scope.
Open Scope opal_scope.

(** [[f(x) for x in l]] with an effectful [f], left to right. *)
Fixpoint mapM {A B} (f : A -> M B) (l : list A) : M (list B) :=
  match l with
  | [] => ret []
  | x :: l' =>
      let! y := f x in
      let! ys := mapM f l' in
      ret (y :: ys)
  end.

(** ** What the sources call in the absent modules *)

(** What the sources call in the modules that are not part of the tree:
    [evaluate.evaluate], and the object [Environment.define] stores for a
    name, a parameter list and a body. *)
Class Absent : Type := {
  evaluate : value -> M value;
  definition : value -> value -> value -> value }.

(** ** environment *)

Module environment.

(** Modelled from the spec: class [Environment] (environment.py is not among
    the sources).  "An ordered sequence of (name, value) bindings where later
    bindings shadow earlier ones with the same name on lookup, but both remain
    present"; the operations are those of section 3 of the specification. *)
Abbreviation Environment := (list (value * value)).

(** Modelled from the spec: the binding [lookup] resolves a name to, "the most
    recent binding" with that name. *)
Fixpoint find (name : value) (env : Environment) : option value :=
  match env with
  | [] => None
  | (n, v) :: env' =>
      match find name env' with
      | Some v' => Some v'
      | None => if py.eqb n name then Some v else None
      end
  end.

(** Modelled from the spec: the name has a binding (it is what [set] tests to
    choose between adding and overwriting). *)
Definition bound (name : value) (env : Environment) : bool :=
  match find name env with Some _ => true | None => false end.

(** Modelled from the spec: [lookup(name)] "returns the most recent binding or
    signals NameError". *)
Definition lookup (name : value) (env : Environment) : outcome value :=
  match find name env with
  | Some v => Ok v
  | None => Err (Raised NameError None)
  end.

(** Modelled from the spec: [extend(childEnv)] "appends another environment's
    bindings onto this one as a new scope". *)
Definition extend (child env : Environment) : Environment := env ++ child.

(** Modelled from the spec: [endScope(n)] "removes the last n bindings". *)
Definition end_scope (n : nat) (env : Environment) : Environment :=
  take (length env - n) env.

(** Modelled from the spec: [len(env)], the environment's binding count. *)
Definition len (env : Environment) : nat := length env.

(** Modelled from the spec: "overwrite a binding", the most recent one of the
    name, which then holds [v]. *)
Fixpoint overwrite (name v : value) (env : Environment) : Environment :=
  match env with
  | [] => []
  | (n, x) :: env' =>
      if bound name env' then (n, x) :: overwrite name v env'
      else if py.eqb n name then (n, v) :: env'
      else (n, x) :: env'
  end.

(** Modelled from the spec: [set(name, value)], "add or overwrite a binding":
    the most recent binding of the name is overwritten when there is one, a
    binding is added otherwise. *)
Definition set (name v : value) (env : Environment) : Environment :=
  if bound name env then overwrite name v env else env ++ [(name, v)].

(** Modelled from the spec: [define(name, params, body)], "add or overwrite a
    binding", here of the name to the object that stands for the definition. *)
Definition define `{Absent} (name params body : value) (env : Environment) : Environment :=
  set name (definition name params body) env.

(** Modelled from the spec: [delete(name)] "removes the most recent binding
    with that name". *)
Fixpoint delete (name : value) (env : Environment) : Environment :=
  match env with
  | [] => []
  | (n, x) :: env' =>
      if bound name env' then (n, x) :: delete name env'
      else if py.eqb n name then env'
      else (n, x) :: env'
  end.

(** Modelled from the spec: [matchArguments(params, args)] "binds each
    parameter name positionally to the corresponding evaluated argument" and
    "fails with ArityError ... when the name count and value count differ". *)
Definition match_arguments (params args : list value) (env : Environment)
  : outcome Environment :=
  if Nat.eqb (length params) (length args) then Ok (env ++ zip params args)
  else Err (Raised ArityError None).

(** Modelled from the spec: [clone()] "produces an independent copy of the
    binding sequence". *)
Definition clone (env : Environment) : Environment := env.

(** [CLOSURES[id]]: a missing key is a [KeyError]. *)
Definition closure (id : string) : M Environment :=
  fun s =>
    match CLOSURES s !! id with
    | Some e => (Ok e, s)
    | None => (Err (Raised KeyError None), s)
    end.

(** [CLOSURES[id] = e] *)
Definition set_closure (id : string) (e : Environment) : M unit :=
  modify (fun s => with_CLOSURES (<[id := e]> (CLOSURES s)) s).

(** [CLOSURES[id].method(...)] for a method that updates the environment in
    place. *)
Definition on_closure (id : string) (f : Environment -> outcome Environment) : M unit :=
  let! c := closure id in
  let! c' := lift (f c) in
  set_closure id c'.

(** [ENV.method(...)] for a method that updates the active environment. *)
Definition on_ENV (f : Environment -> Environment) : M unit :=
  modify (fun s => with_ENV (f (ENV s)) s).

(** Modelled from the spec: [runlocal(logic, args)] on the environment
    registered under [id]: the logic runs "in a freshly extended local scope
    that is torn down afterward", a scope being "a contiguous run of bindings
    added to an Environment by one call/form invocation, removable as a unit by
    count": what the logic added beyond the bindings present at entry is
    removed on both exits. *)
Definition runlocal {A} (id : string) (logic : M A) : M A :=
  let! c := closure id in
  try_finally logic
    (modify (fun s =>
       match CLOSURES s !! id with
       | Some c' => with_CLOSURES (<[id := take (length c) c']> (CLOSURES s)) s
       | None => s
       end)).

(** Modelled from the spec: [ENV.runClosed(closure, logic, args)], "run in a
    borrowed foreign environment": the closure registered under [id] is the
    active scope while the logic runs, what the logic did to the active scope
    is kept in the closure, and the borrowed scope is deactivated "on exit
    regardless of outcome". *)
Definition runClosed {A} (id : string) (logic : M A) : M A :=
  let! c := closure id in
  fun s =>
    let saved := ENV s in
    let (r, s') := logic (with_ENV c s) in
    (r, with_ENV saved (with_CLOSURES (<[id := ENV s']> (CLOSURES s')) s')).

End environment.

(** ** keywords.py: the predicates *)

Module predicates.
Section predicates.
Context `{Host}.

Definition is_digit (c : ascii) : bool :=
  let n := nat_of_ascii c in Nat.leb 48 n && Nat.leb n 57.

Fixpoint span_digits (l : list ascii) : list ascii * list ascii :=
  match l with
  | c :: l' =>
      if is_digit c then let (ds, rest) := span_digits l' in (c :: ds, rest)
      else ([], l)
  | [] => ([], [])
  end.

(** [$] matches at the end of the string and also just before a newline that
    ends the string. *)
Definition before_dollar (l : list ascii) : list ascii :=
  match rev l with
  | c :: r => if Ascii.eqb c "010"%char then rev r else l
  | [] => l
  end.

(** [re.match(r"^[-]?[0-9]*[.]?[0-9]+$", s)]: an optional sign, then digits,
    or digits (possibly none), a dot and at least one digit. *)
Definition number_pattern (s : string) : bool :=
  let l := list_ascii_of_string s in
  let l := match l with
           | c :: l' => if Ascii.eqb c "-"%char then l' else l
           | [] => l
           end in
  let (ds, rest) := span_digits (before_dollar l) in
  match rest with
  | [] => negb (Nat.eqb (length ds) 0)
  | c :: ds' =>
      Ascii.eqb c "."%char && negb (Nat.eqb (length ds') 0) && forallb is_digit ds'
  end.

(** [re.match(r"^c[ad]+r$", s)] *)
Definition cxr_pattern (s : string) : bool :=
  match before_dollar (list_ascii_of_string s) with
  | c :: l =>
      Ascii.eqb c "c"%char &&
      match rev l with
      | r :: m =>
          Ascii.eqb r "r"%char && negb (Nat.eqb (length m) 0)
          && forallb (fun x => Ascii.eqb x "a"%char || Ascii.eqb x "d"%char) m
      | [] => false
      end
  | [] => false
  end.

Definition isquote (x : value) : bool :=
  match x with
  | VList [h; _] => py.is_str h "quote"
  | _ => false
  end.

Definition isnumber (x : value) : bool := number_pattern (py.str x).

Definition iscxr (x : value) : bool := cxr_pattern (py.str x).

Definition isatom (x : value) : bool := negb (py.is_list x).

Definition isfunction (x : value) : bool :=
  match x with VFunction _ _ _ _ _ => true | _ => false end.

End predicates.
End predicates.

(** ** parser.py *)

Module parser.
Section parser.
Context `{Host}.

(** [x in ("#t", "#f")] *)
Definition is_bool_token (x : value) : bool := py.is_str x "#t" || py.is_str x "#f".

(** ["." in x] *)
Definition has_dot (s : string) : bool :=
  existsb (fun c => Ascii.eqb c "."%char) (list_ascii_of_string s).

Definition retype (x : value) : outcome value :=
  if predicates.isnumber x then
    match x with
    | VStr s =>
        if has_dot s then Ok (VFloat (py_float s))
        else let? z := py_int s in Ok (VInt z)
    | _ => Err (Raised TypeError None)
    end
  else if is_bool_token x then Ok (VBool (py.is_str x "#t"))
  else Ok x.

Fixpoint preprocess (expr : value) : outcome value :=
  match expr with
  | VList l =>
      let? l' :=
        (fix items (l : list value) : outcome (list value) :=
           match l with
           | [] => Ok []
           | h :: t =>
               if py.is_list h then
                 let? h' := preprocess h in
                 let? t' := items t in
                 Ok (h' :: t')
               else if py.is_str h "'" then
                 match t with
                 | [] => Err (Raised IndexError None)
                 | x :: t2 =>
                     let? x' := preprocess x in
                     let? t' := items t2 in
                     Ok (VList [VStr "quote"; x'] :: t')
                 end
               else
                 let? h' := retype h in
                 let? t' := items t in
                 Ok (h' :: t')
           end) l in
      Ok (VList l')
  | _ => Ok expr
  end.

(** What an f-string prints for an optional string ([None] prints as its
    name). *)
Definition fmt (o : option string) : string := default "None" o.

Fixpoint convert (s : value) : option string :=
  match s with
  | VNone => None
  | VBool b => Some (if b then "#t" else "#f")
  | VList l =>
      if predicates.isquote s then
        match l with
        | [_; x] => Some ("'" +:+ fmt (convert x))
        | _ => None
        end
      else
        Some ("(" +:+ py.join " "
                ((fix items (l : list value) : list string :=
                    match l with
                    | [] => []
                    | VNone :: l' => items l'
                    | e :: l' => fmt (convert e) :: items l'
                    end) l) +:+ ")")
  | _ => Some (py.str s)
  end.

(** *** From a line to nested lists

    A line is a [str], a character of which is taken to be a code point below
    256; the tokens of a line are strings. *)

(** [" ".join(expr)] in the two messages of [isperfectlybalanced]. *)
Definition unmatched_closing (expr : list string) : exn :=
  Raised SyntaxError (Some ("unmatched closing parenthesis in " +:+ py.join " " expr)).

Definition unmatched_opening (expr : list string) : exn :=
  Raised SyntaxError (Some ("unmatched opening parenthesis in " +:+ py.join " " expr)).

(** The loop of [isperfectlybalanced] over the tokens [rest] that remain,
    [stack] counting the parentheses that are open. *)
Fixpoint balance_loop (expr rest : list string) (stack : nat) : outcome nat :=
  match rest with
  | [] => Ok stack
  | char :: rest' =>
      if String.eqb char "(" then balance_loop expr rest' (S stack)
      else if String.eqb char ")" then
        match stack with
        | 0 => Err (unmatched_closing expr)
        | S stack' => balance_loop expr rest' stack'
        end
      else balance_loop expr rest' stack
  end.

Definition isperfectlybalanced (expr : list string) : outcome unit :=
  let? stack := balance_loop expr expr 0 in
  if Nat.eqb stack 0 then Ok tt else Err (unmatched_opening expr).

Definition syntax_check (expr : list string) : outcome (list string) :=
  let? _ := isperfectlybalanced expr in
  Ok expr.

(** The loop of [get_opp_par] from position [index]; the function returns
    [None] when the loop ends. *)
Fixpoint opp_par_loop (rest : list string) (index : nat) (balance : Z) : option nat :=
  match rest with
  | [] => None
  | char :: rest' =>
      let balance := if String.eqb char "(" then (balance + 1)%Z
                     else if String.eqb char ")" then (balance - 1)%Z
                     else balance in
      if (balance =? 0)%Z then Some index else opp_par_loop rest' (S index) balance
  end.

Definition get_opp_par (expr : list string) : option nat := opp_par_loop expr 0 0.

(** [s.replace(old, new)] for a one-character [old]. *)
Fixpoint replace_char (old : ascii) (new : string) (s : string) : string :=
  match s with
  | EmptyString => EmptyString
  | String x s' =>
      if Ascii.eqb x old then new +:+ replace_char old new s'
      else String x (replace_char old new s')
  end.

(** [str.isspace] on one character: the code points 9 to 13, 28 to 32, 133
    and 160. *)
Definition is_space (c : ascii) : bool :=
  let n := nat_of_ascii c in
  (Nat.leb 9 n && Nat.leb n 13) || (Nat.leb 28 n && Nat.leb n 32)
  || Nat.eqb n 133 || Nat.eqb n 160.

(** [s.split()]: the maximal runs of characters that are not whitespace;
    [word] holds the run being read, last character first. *)
Definition flush (word : list ascii) : list string :=
  match word with
  | [] => []
  | _ :: _ => [string_of_list_ascii (rev word)]
  end.

Fixpoint split_loop (word : list ascii) (l : list ascii) : list string :=
  match l with
  | [] => flush word
  | c :: l' =>
      if is_space c then flush word ++ split_loop [] l'
      else split_loop (c :: word) l'
  end.

Definition split (s : string) : list string := split_loop [] (list_ascii_of_string s).

Definition OPAL_to_list (s : string) : list string :=
  split (replace_char "'" " ' " (replace_char ")" " ) " (replace_char "(" " ( " s))).

(** [lst_to_Python] calls itself on slices of its argument; [n] bounds the
    nesting of these calls, and [lst_to_Python] starts it above the length of
    the list, which no nesting reaches.  When [get_opp_par] returns [None] the
    slice [expr[1:None]] is the rest of the list and [None + 1] is a
    [TypeError]. *)
Fixpoint lst_to_Python_steps (n : nat) (expr : list string) : outcome (list value) :=
  match n with
  | 0 => Err (Raised RecursionError None)
  | S n' =>
      match expr with
      | [] => Ok []
      | h :: t =>
          if String.eqb h "(" then
            match get_opp_par expr with
            | Some closing_idx =>
                let? inner := lst_to_Python_steps n' (take (closing_idx - 1) t) in
                let? rest := lst_to_Python_steps n' (drop (S closing_idx) expr) in
                Ok (VList inner :: rest)
            | None =>
                let? _ := lst_to_Python_steps n' t in
                Err (Raised TypeError None)
            end
          else
            let? rest := lst_to_Python_steps n' t in
            Ok (VStr h :: rest)
      end
  end.

Definition lst_to_Python (expr : list string) : outcome (list value) :=
  lst_to_Python_steps (S (length expr)) expr.

(** [expr.count(c)] for a one-character [c], and [sub in expr]. *)
Definition count_char (c : ascii) (expr : string) : nat :=
  count_occ ascii_dec (list_ascii_of_string expr) c.

Fixpoint contains (sub expr : string) : bool :=
  String.prefix sub expr
  || match expr with
     | EmptyString => false
     | String _ expr' => contains sub expr'
     end.

(** [iscomplete]; joining a string puts a space between its characters. *)
Definition iscomplete (expr : string) : outcome bool :=
  if Nat.ltb (count_char "(" expr) (count_char ")" expr) then
    Err (Raised SyntaxError
           (Some ("fatal expression: "
                  +:+ py.join " "
                        (map (fun c => String c EmptyString) (list_ascii_of_string expr)))))
  else
    Ok ((contains "@start" expr && contains "@end" expr)
        || (negb (contains "@start" expr)
            && Nat.eqb (count_char "(" expr) (count_char ")" expr))).

(** [l.pop()] *)
Definition pop (l : list value) : outcome value :=
  match last l with
  | Some x => Ok x
  | None => Err (Raised IndexError None)
  end.

(** [parse]: [pop] is called on what [preprocess] returns for a list, which
    is a list, so that the last branch is never taken. *)
Definition parse (s : string) : outcome value :=
  let? tokens := syntax_check (OPAL_to_list s) in
  let? nested := lst_to_Python tokens in
  let? expr := preprocess (VList nested) in
  match expr with
  | VList items => pop items
  | _ => Err (Raised TypeError None)
  end.

End parser.
End parser.

(** ** keywords.py: the functions *)

Module keywords.
Section keywords.
Context `{Host} `{Absent}.

Definition evlist (x : list value) : M (list value) := mapM evaluate x.

(** The bare [except] turns every failure of [x[0]] into the [TypeError] of
    ['car']. *)
Definition head (x : value) : outcome value :=
  match py.getitem x 0 with
  | Ok v => Ok v
  | Err _ =>
      Err (Raised TypeError
             (Some ("unsupported argument for 'car': " +:+ parser.fmt (parser.convert x))))
  end.

Definition tail (x : value) : outcome value :=
  match py.slice_from x 1 with
  | Ok v => Ok v
  | Err _ =>
      Err (Raised TypeError
             (Some ("unsupported argument for 'cdr': " +:+ parser.fmt (parser.convert x))))
  end.

(** One step of [evcxr] removes the last letter of [x]; [n] bounds the number
    of steps and [evcxr] starts it at the length of [x]. *)
Fixpoint evcxr_steps (n : nat) (x : string) (output : value) : outcome value :=
  if String.eqb x "" then Ok output
  else
    match n with
    | 0 => Ok VNone
    | S n' =>
        if py.endswith x "a" then
          let? h := head output in evcxr_steps n' (py.removesuffix x "a") h
        else if py.endswith x "d" then
          let? t := tail output in evcxr_steps n' (py.removesuffix x "d") t
        else Ok VNone
    end.

Definition evcxr (x : string) (output : value) : outcome value :=
  evcxr_steps (String.length x) x output.

(** [x == "#t" if isinstance(x, str) else x] *)
Definition rebool (x : value) : value :=
  match x with
  | VStr s => VBool (String.eqb s "#t")
  | _ => x
  end.

Fixpoint cond (expr : list value) : M value :=
  match expr with
  | [] => raise (Raised IndexError None)
  | clause :: rest =>
      let! c := lift (py.getitem clause 0) in
      let! chosen :=
        (if py.is_str c "else" then ret true
         else let! v := evaluate c in ret (py.truthy v)) in
      if chosen : bool then
        let! body := lift (py.getitem clause 1) in
        evaluate body
      else cond rest
  end.

(** [val] defaults to [None]; the function returns [None] after an
    assignment. *)
Definition globals (var val : value) : M value :=
  if py.truthy val then
    let! v := evaluate val in
    fun s =>
      match py.dict_set (GLOBALS s) var v with
      | Ok g => (Ok VNone, with_GLOBALS g s)
      | Err e => (Err e, s)
      end
  else
    fun s => (py.dict_get_default (GLOBALS s) var VValueError, s).

(** [x == []] *)
Definition isnull (x : value) : bool := py.eqb x (VList []).

(** [isinstance(x, bool) or x in ("#t", "#f")] *)
Definition isbool (x : value) : bool :=
  match x with
  | VBool _ => true
  | _ => parser.is_bool_token x
  end.

(** [isinstance(x[0], list) and len(x) == 1]: the subscript comes first, and
    the length is taken only when the first element is a list. *)
Definition islist (x : value) : outcome bool :=
  let? h := py.getitem x 0 in
  if py.is_list h then let? n := py.len x in Ok (Nat.eqb n 1)
  else Ok false.

Definition isstring (x : value) : outcome bool :=
  let? h := py.getitem x 0 in
  match h with
  | VStr _ => let? n := py.len x in Ok (Nat.eqb n 1)
  | _ => Ok false
  end.

(** [[x] + y]: a list is concatenated with a list only. *)
Definition cons (x y : value) : outcome value :=
  match y with
  | VList l => Ok (VList (x :: l))
  | _ => Err (Raised TypeError None)
  end.

(** [l[i]] *)
Definition ref (l i : value) : outcome value := py.subscript l i.

(** The number of values [range(n)] yields: none for a negative [n]; [n] has
    to be an [int] (a [bool] is one). *)
Definition range_count (n : value) : outcome nat :=
  match n with
  | VInt z => Ok (Z.to_nat z)
  | VBool b => Ok (if b then 1 else 0)
  | _ => Err (Raised TypeError None)
  end.

(** [for _ in range(k): m] *)
Fixpoint times {A} (k : nat) (m : M A) : M unit :=
  match k with
  | 0 => ret tt
  | S k' => do! m in times k' m
  end.

Definition repeat (number body : value) : M value :=
  let! n := evaluate number in
  let! k := lift (range_count n) in
  do! times k (evaluate body) in
  ret VNone.

(** The Boolean functions: [not a], [a or b], [a and b], [not (a or b)],
    [not (a and b)]. *)
Definition NOT (a : value) : value := VBool (negb (py.truthy a)).

Definition OR (a b : value) : value := if py.truthy a then a else b.

Definition AND (a b : value) : value := if py.truthy a then b else a.

Definition NOR (a b : value) : value := VBool (negb (py.truthy (OR a b))).

Definition NAND (a b : value) : value := VBool (negb (py.truthy (AND a b))).

End keywords.
End keywords.

(** ** datatypes.py *)

Module datatypes.
Section datatypes.
Context `{Host} `{Absent}.

(** The next value of [random.randint(0, 10**k)]. *)
Definition draw : M Z :=
  fun s => (Ok (randint (draws s)), with_draws (S (draws s)) s).

Definition generate_id (type : string) (name : value) : M string :=
  let! r := draw in
  ret ("ID:" +:+ pretty r +:+ "." +:+ type +:+ "." +:+ py.str name).

(** [x or []] *)
Definition or_empty (x : value) : value := if py.truthy x then x else VList [].

(** [Closable.__init__]: the attributes [parameters], [body] and [id] it
    sets; the registry entry of the identifier is a new, empty environment. *)
Definition Closable_init (type : string) (name parameters body : value)
  : M (value * value * string) :=
  let! id := generate_id type name in
  do! environment.set_closure id [] in
  ret (or_empty parameters, or_empty body, id).

(** [Function.__init__]; an omitted [parameters] or [body] is [None]. *)
Definition Function_init (name parameters body : value) (isMethod : bool) : M value :=
  let type := if isMethod then "method"
              else if py.is_str name "lambda" then "lambda" else "function" in
  let! r := Closable_init type name parameters body in
  let '(p, b, id) := r in
  let name' := if String.eqb type "lambda"
               then VStr (parser.fmt (parser.convert p) +:+ " " +:+ parser.fmt (parser.convert b))
               else name in
  ret (VFunction type name' p b id).

(** [self.type in ('lambda', 'self')] *)
Definition binds_self (type : string) : bool :=
  String.eqb type "lambda" || String.eqb type "self".

(** The part of [Function.eval] before the [try]: parameters matched in the
    function's closure, ['self'] defined for a lambda, the active environment
    extended with the closure. *)
Definition enter (type : string) (parameters body : value) (id : string)
  (args : list value) : M unit :=
  do! environment.on_closure id (fun c =>
        let? params := py.iter parameters in
        environment.match_arguments params args c) in
  do! (if binds_self type
       then environment.on_closure id (fun c =>
              Ok (environment.define (VStr "self") parameters body c))
       else ret tt) in
  let! c := environment.closure id in
  environment.on_ENV (environment.extend c).

(** The [try] block. *)
Definition run_body (body : value) (id : string) : M value :=
  let! value := evaluate body in
  do! (match value with
       | VFunction _ _ _ _ vid =>
           let! c := environment.closure id in
           environment.set_closure vid (environment.clone c)
       | _ => ret tt
       end) in
  ret value.

(** The [finally] block. *)
Definition unwind (type : string) (id : string) : M unit :=
  let! c := environment.closure id in
  do! environment.on_ENV (environment.end_scope (environment.len c)) in
  if binds_self type
  then environment.on_closure id (fun c => Ok (environment.delete (VStr "self") c))
  else ret tt.

(** The inner function [logic] of [Function.eval]. *)
Definition logic (type : string) (parameters body : value) (id : string)
  (args : list value) : M value :=
  do! enter type parameters body id args in
  try_finally (run_body body id) (unwind type id).

(** ["s" * bool(n - 1)] *)
Definition plural (n : nat) : string := if Nat.eqb n 1 then "" else "s".

Definition arity_message (name : value) (expected given : nat) : string :=
  py.str name +:+ " takes " +:+ pretty expected +:+ " argument" +:+ plural expected
  +:+ " but " +:+ pretty given +:+ " were given".

(** [Function.eval(self, args)]; [args] is [None] or a list of argument
    expressions. *)
Definition Function_eval (type : string) (name parameters body : value) (id : string)
  (args : option (list value)) : M value :=
  let! args := match args with
               | None => ret []
               | Some a => keywords.evlist a
               end in
  let! n := lift (py.len parameters) in
  if negb (Nat.eqb n (length args))
  then raise (Raised TypeError (Some (arity_message name n (length args))))
  else environment.runlocal id (logic type parameters body id args).

(** [Function] called on the unpacked [rest] with [isMethod=True]: one to
    three positional arguments. *)
Definition Function_star (rest : value) : M value :=
  let! l := lift (py.iter rest) in
  match l with
  | [n] => Function_init n VNone VNone true
  | [n; p] => Function_init n p VNone true
  | [n; p; b] => Function_init n p b true
  | _ => raise (Raised TypeError None)
  end.

(** One step of the comprehension that builds [methods]: for an entry [e]
    with [e[0] == "func"], the key [e[1]] and a method made of [e[1:]]. *)
Definition method_entry (d : py.dict) (e : value) : M py.dict :=
  let! tag := lift (py.getitem e 0) in
  if py.is_str tag "func" then
    let! key := lift (py.getitem e 1) in
    let! rest := lift (py.slice_from e 1) in
    let! f := Function_star rest in
    lift (py.dict_set d key f)
  else ret d.

(** One step of [{ e[1] : e[2] for e in self.body if e[0] == "var" }]. *)
Definition variable_entry (d : py.dict) (e : value) : outcome py.dict :=
  let? tag := py.getitem e 0 in
  if py.is_str tag "var" then
    let? key := py.getitem e 1 in
    let? v := py.getitem e 2 in
    py.dict_set d key v
  else Ok d.

Fixpoint collect_methods (d : py.dict) (entries : list value) : M py.dict :=
  match entries with
  | [] => ret d
  | e :: entries' =>
      let! d' := method_entry d e in
      collect_methods d' entries'
  end.

Fixpoint collect_variables (d : py.dict) (entries : list value) : outcome py.dict :=
  match entries with
  | [] => Ok d
  | e :: entries' =>
      let? d' := variable_entry d e in
      collect_variables d' entries'
  end.

(** The loop that sets [self.init]: the tail of the first entry tagged
    ["init"], [None] when there is none. *)
Fixpoint find_init (entries : list value) : outcome value :=
  match entries with
  | [] => Ok VNone
  | method :: entries' =>
      let? tag := py.getitem method 0 in
      if py.is_str tag "init" then py.slice_from method 1
      else find_init entries'
  end.

(** [Template.__init__] *)
Definition Template_init (name parameters body : value) : M value :=
  let! r := Closable_init "template" name parameters body in
  let '(p, b, id) := r in
  let! entries := lift (py.iter b) in
  let! methods := collect_methods [] entries in
  let! variables := lift (collect_variables [] entries) in
  let! init := lift (find_init entries) in
  do! environment.on_closure id
        (environment.match_arguments (map fst variables) (map snd variables)) in
  do! environment.on_closure id
        (environment.match_arguments (map fst methods) (map snd methods)) in
  ret (VTemplate name p b id init).

(** [Instance.__init__] *)
Definition Instance_init (name parameters args : value) : M value :=
  let! r := Closable_init "instance" name parameters args in
  let '(p, b, id) := r in
  do! environment.on_closure id (fun c =>
        let? params := py.iter p in
        let? a := py.iter args in
        environment.match_arguments params a c) in
  ret (VInstance name p b id).

(** [Template.new(self, args)], [self] given by its attributes. *)
Definition Template_new (name parameters : value) (id : string) (init : value)
  (args : value) : M value :=
  let! newInstance := Instance_init name parameters args in
  match newInstance with
  | VInstance _ _ _ nid =>
      let! ci := environment.closure nid in
      let! ct := environment.closure id in
      do! environment.set_closure nid (ci ++ ct) in
      do! (if py.truthy init
           then let! l := lift (py.iter init) in
                let! _ := environment.runClosed nid (keywords.evlist l) in
                ret tt
           else ret tt) in
      ret newInstance
  | _ => ret newInstance
  end.

End datatypes.
End datatypes.

(** ** evaluate *)

Module evaluator.

(** Modelled from the spec: what [Environment.define] stores for a definition
    (environment.py is not among the sources); section 4.3 has ['self'] bound
    "to a reference to the function's own parameter list and body", and that
    pair is what this model stores. *)
Definition definition_model (name params body : value) : value := VList [params; body].

(** Modelled from the spec: [evaluate.evaluate] (evaluate.py is not among the
    sources), for the fragment of section 4.5 the closed examples run:
    "numeric/boolean literals evaluate to themselves; a symbol evaluates via
    Environment lookup, failing with NameError if unbound"; "(quote x) returns
    x unevaluated"; a sequence headed by a symbol bound to a Function is a
    "user Function ... call (resolve h via lookup, then dispatch per 4.3)";
    anything else is "unknown (fails with NameError)".  [depth] is the room
    left on the host's call stack, whose exhaustion is a [RecursionError]. *)
Fixpoint evaluate_depth `{Host} (depth : nat) (e : value) : M value :=
  match depth with
  | 0 => raise (Raised RecursionError None)
  | S d =>
      let absent := {| evaluate := evaluate_depth d; definition := definition_model |} in
      match e with
      | VStr _ => fun s => (environment.lookup e (ENV s), s)
      | VList (h :: args) =>
          if py.is_str h "quote" then lift (py.getitem e 1)
          else
            let! f := (fun s => (environment.lookup h (ENV s), s)) in
            match f with
            | VFunction type name parameters body id =>
                datatypes.Function_eval type name parameters body id (Some args)
            | _ => raise (Raised NameError None)
            end
      | VList [] => raise (Raised NameError None)
      | _ => ret e
      end
  end.

(** The absent modules as the examples instantiate them. *)
Definition absent_model `{Host} (depth : nat) : Absent :=
  {| evaluate := evaluate_depth depth; definition := definition_model |}.

Definition digit_value (c : ascii) : Z := Z.of_nat (nat_of_ascii c - 48).

(** [int(s)] for a decimal token: an optional sign, then digits. *)
Definition int_of_token (s : string) : outcome Z :=
  let l := predicates.before_dollar (list_ascii_of_string s) in
  let (neg, ds) := match l with
                   | c :: l' => if Ascii.eqb c "-"%char then (true, l') else (false, l)
                   | [] => (false, l)
                   end in
  if forallb predicates.is_digit ds && negb (Nat.eqb (length ds) 0)
  then let n := fold_left (fun acc c => (10 * acc + digit_value c)%Z) ds 0%Z in
       Ok (if neg then (- n)%Z else n)
  else Err (Raised ValueError None).

(** A host for the closed examples: [int] reads a decimal token, [str] prints
    integers, booleans and [None]; the examples hold no float literal and print
    no float or list, for which [float] and [str] answer with placeholders;
    the n-th random tag is n. *)
Definition example_host : Host :=
  {| py_int := int_of_token;
     py_float := fun _ => 0%float;
     py_str := fun v =>
       match v with
       | VNone => "None"
       | VBool b => if b then "True" else "False"
       | VInt z => pretty z
       | VValueError => "<class 'ValueError'>"
       | _ => "?"
       end;
     randint := Z.of_nat |}.

End evaluator.

(** ** Properties stated in the words of the specification *)

Module spec.
Section spec.
Context `{Host} `{Absent}.

(** The letters of a cxr accessor: at least one, each an [a] or a [d]. *)
Definition accessor_letters (x : string) : bool :=
  negb (String.eqb x EmptyString)
  && forallb (fun c => Ascii.eqb c "a"%char || Ascii.eqb c "d"%char) (list_ascii_of_string x).

(** "Peel the head/tail according to each letter": one letter. *)
Definition peel (c : ascii) (v : value) : outcome value :=
  if Ascii.eqb c "a"%char then keywords.head v else keywords.tail v.

(** The letters applied in the order given, each to the result of the one
    before, stopping at the first failure. *)
Fixpoint peel_all (l : list ascii) (v : value) : outcome value :=
  match l with
  | [] => Ok v
  | c :: l' => let? v' := peel c v in peel_all l' v'
  end.

(** "A TypeError naming the offending accessor": the two exceptions [head]
    and [tail] raise. *)
Definition car_error (w : value) : exn :=
  Raised TypeError (Some ("unsupported argument for 'car': " +:+ parser.fmt (parser.convert w))).

Definition cdr_error (w : value) : exn :=
  Raised TypeError (Some ("unsupported argument for 'cdr': " +:+ parser.fmt (parser.convert w))).

(** A sequence of the host language: a list or a string. *)
Definition is_sequence (v : value) : bool :=
  match v with
  | VList _ | VStr _ => true
  | _ => false
  end.

(** "Every clause's condition evaluates to false and no clause has the head
    else": the clauses are visited in order, from state [s]; each has a first
    element that is not ["else"] and whose evaluation returns a false value;
    [s'] is the state after the last of these evaluations. *)
Inductive all_conditions_false : list value -> state -> state -> Prop :=
| acf_nil s : all_conditions_false [] s s
| acf_cons clause rest c v s s1 s2 :
    py.getitem clause 0 = Ok c ->
    py.is_str c "else" = false ->
    evaluate c s = (Ok v, s1) ->
    py.truthy v = false ->
    all_conditions_false rest s1 s2 ->
    all_conditions_false (clause :: rest) s s2.






End spec.
End spec.

(** ** The states a Function call goes through *)

Module call.
Section call.
Context `{Host} `{Absent}.

(** The function's closure when its body starts: the registered bindings
    [c0], the parameters [ps] bound to the arguments, and ['self'] for a
    lambda. *)
Definition entry_closure (type : string) (parameters body : value)
  (c0 : environment.Environment) (ps args : list value) : environment.Environment :=
  let c1 := c0 ++ zip ps args in
  if datatypes.binds_self type
  then environment.define (VStr "self") parameters body c1
  else c1.

(** The state in which the body is evaluated: the closure [c] registered for
    the function and appended to the active environment. *)
Definition entry_state (id : string) (c : environment.Environment) (s : state) : state :=
  with_ENV (ENV s ++ c) (with_CLOSURES (<[id := c]> (CLOSURES s)) s).

(** The registry after the [try] block: the entry of a returned Function is
    the copy of the closure [c] of the function that returned it. *)
Definition registry_after_body (r : outcome value) (c : environment.Environment)
  (registry : gmap string (list (value * value))) : gmap string (list (value * value)) :=
  match r with
  | Ok (VFunction _ _ _ _ vid) => <[vid := environment.clone c]> registry
  | _ => registry
  end.

(** The registry after the [finally] block. *)
Definition registry_after_unwind (type id : string) (c : environment.Environment)
  (registry : gmap string (list (value * value))) : gmap string (list (value * value)) :=
  if datatypes.binds_self type
  then <[id := environment.delete (VStr "self") c]> registry
  else registry.

(** The state [logic] ends in, from the state [s2] the evaluation of the body
    left, [c] being the function's closure in [s2]. *)
Definition exit_state (type id : string) (r : outcome value)
  (c : environment.Environment) (s2 : state) : state :=
  with_ENV (environment.end_scope (length c) (ENV s2))
    (with_CLOSURES
       (registry_after_unwind type id c (registry_after_body r c (CLOSURES s2))) s2).

(** What [runlocal] does to the registry on exit: the environment registered
    under [id] keeps the [n] bindings it had at entry. *)
Definition teardown (id : string) (n : nat) (s : state) : state :=
  match CLOSURES s !! id with
  | Some c => with_CLOSURES (<[id := take n c]> (CLOSURES s)) s
  | None => s
  end.

(** The identifier [generate_id] makes in state [s] for a Closable of the
    given type and name. *)
Definition next_id (type : string) (name : value) (s : state) : string :=
  "ID:" +:+ pretty (randint (draws s)) +:+ "." +:+ type +:+ "." +:+ py.str name.


(** The argument list of a call: [None] stands for no argument. *)
Definition evaluated_arguments (args : option (list value)) : M (list value) :=
  match args with
  | None => ret []
  | Some a => keywords.evlist a
  end.

End call.
End call.

(** ** Expressions as trees *)

Module syntax.

(** An expression as it is written: a token, or a parenthesised sequence of
    expressions. *)
Inductive sexp : Type :=
| Sym (t : string)
| Seq (l : list sexp).

(** The tokens of an expression, in order. *)
Fixpoint tokens (e : sexp) : list string :=
  match e with
  | Sym t => [t]
  | Seq l => "(" :: flat_map tokens l ++ [")"]
  end.

(** The tokens of the expressions of a line. *)
Definition flatten (es : list sexp) : list string := flat_map tokens es.

(** The nested list of strings that stands for an expression. *)
Fixpoint nest (e : sexp) : value :=
  match e with
  | Sym t => VStr t
  | Seq l => VList (map nest l)
  end.

(** The Python object an expression denotes once its atoms are typed, for
    atoms that are Boolean tokens or symbols. *)
Fixpoint denote (e : sexp) : value :=
  match e with
  | Sym t =>
      if String.eqb t "#t" then VBool true
      else if String.eqb t "#f" then VBool false
      else VStr t
  | Seq l => VList (map denote l)
  end.

(** The expression written out: the elements of a sequence separated by one
    space, between parentheses. *)
Fixpoint text (e : sexp) : string :=
  match e with
  | Sym t => t
  | Seq l => "(" +:+ py.join " " (map text l) +:+ ")"
  end.

(** Every token of the expression satisfies [P]. *)
Fixpoint atoms_are (P : string -> bool) (e : sexp) : bool :=
  match e with
  | Sym t => P t
  | Seq l => forallb (atoms_are P) l
  end.

Definition is_paren (t : string) : bool := String.eqb t "(" || String.eqb t ")".

Definition not_paren (t : string) : bool := negb (is_paren t).

(** The characters the tokenizer sets tokens apart by. *)
Definition is_delimiter (c : ascii) : bool :=
  parser.is_space c || Ascii.eqb c "("%char || Ascii.eqb c ")"%char || Ascii.eqb c "'"%char.

(** A word: one character at least, none of them a delimiter. *)
Definition word (t : string) : bool :=
  negb (String.eqb t EmptyString)
  && forallb (fun c => negb (is_delimiter c)) (list_ascii_of_string t).

(** A word that is not a number: a symbol or a Boolean token. *)
Definition symbol (t : string) : bool := word t && negb (predicates.number_pattern t).

(** A sequence of two elements headed by the symbol [quote]. *)
Definition quote_form (l : list sexp) : bool :=
  match l with
  | [Sym t; _] => String.eqb t "quote"
  | _ => false
  end.

(** An expression made of symbols, Boolean tokens and sequences, none of
    which is a quote form. *)
Fixpoint plain (e : sexp) : bool :=
  match e with
  | Sym t => symbol t
  | Seq l => negb (quote_form l) && forallb plain l
  end.

(** The tokens read so far while a list of tokens is scanned, for the
    sequences that are open (the innermost first) and the expressions read in
    the innermost one. *)
Fixpoint read_so_far (open : list (list sexp)) (current : list sexp) : list string :=
  match open with
  | [] => flatten current
  | outer :: open' => read_so_far open' outer ++ "(" :: flatten current
  end.

(** What the three replacements of the tokenizer make of one character: a
    parenthesis or a quote mark is set between two spaces. *)
Definition pad_char (c : ascii) : list ascii :=
  if Ascii.eqb c "("%char || Ascii.eqb c ")"%char || Ascii.eqb c "'"%char
  then [" "%char; c; " "%char]
  else [c].

(** A token of the tokenizer: a word, or one parenthesis or quote mark. *)
Definition token (t : string) : bool :=
  word t || String.eqb t "(" || String.eqb t ")" || String.eqb t "'".

End syntax.

(** ** Regular expressions *)

Module regex.

(** The regular expressions of keywords.py: a character class, an optional
    part, a repetition, a concatenation. *)
Inductive re : Type :=
| Class (p : ascii -> bool)
| Opt (r : re)
| Star (r : re)
| Cat (r1 r2 : re).

(** [r+] *)
Definition Plus (r : re) : re := Cat r (Star r).

(** The character sequences a regular expression matches. *)
Inductive matches : re -> list ascii -> Prop :=
| matches_class p c : p c = true -> matches (Class p) [c]
| matches_opt_none r : matches (Opt r) []
| matches_opt_some r l : matches r l -> matches (Opt r) l
| matches_star_nil r : matches (Star r) []
| matches_star_cons r l1 l2 : matches r l1 -> matches (Star r) l2 -> matches (Star r) (l1 ++ l2)
| matches_cat r1 r2 l1 l2 : matches r1 l1 -> matches r2 l2 -> matches (Cat r1 r2) (l1 ++ l2).

(** [re.match("^" r "$", s)] finds a match: [r] matches the whole string, or
    all of it but a newline that ends it. *)
Definition re_match (r : re) (s : string) : Prop :=
  exists l,
    matches r l
    /\ (list_ascii_of_string s = l \/ list_ascii_of_string s = l ++ ["010"%char]).

Definition one (c : ascii) : re := Class (Ascii.eqb c).

(** [[-]?[0-9]*[.]?[0-9]+] *)
Definition number : re :=
  Cat (Opt (one "-")) (Cat (Star (Class predicates.is_digit))
    (Cat (Opt (one ".")) (Plus (Class predicates.is_digit)))).

(** [c[ad]+r] *)
Definition cxr : re :=
  Cat (one "c")
    (Cat (Plus (Class (fun x => Ascii.eqb x "a"%char || Ascii.eqb x "d"%char))) (one "r")).

End regex.

(** ** Closed examples *)

Module examples.

(** The absent modules of the examples, with room for sixteen nested
    evaluations. *)
Definition absent : Absent := @evaluator.absent_model evaluator.example_host 16.

(** A call [f.eval(args)] of a Function object [f]. *)
Definition call (f : value) (args : list value) : M value :=
  match f with
  | VFunction type name parameters body id =>
      @datatypes.Function_eval evaluator.example_host absent
        type name parameters body id (Some args)
  | _ => raise (Raised TypeError None)
  end.

(** The state with the given bindings active and an empty closure registered
    for each of the given identifiers. *)
Definition initial (env : list (value * value)) (ids : list string) : state :=
  State env (list_to_map (map (fun i => (i, [])) ids)) [] 0.

(** A function of one parameter. *)
Definition unary : value :=
  VFunction "function" (VStr "f") (VList [VStr "x"]) (VStr "x") "ID:7.function.f".


(** An anonymous function of one parameter whose body reads [y]. *)
Definition failing : value :=
  VFunction "lambda" (VStr "(x) y") (VList [VStr "x"]) (VStr "y") "ID:9.lambda.lambda".

(** [caller] takes two arguments and calls [helper]; [helper] takes one
    argument and returns the Function bound to [f], which is [caller]. *)
Definition caller : value :=
  VFunction "function" (VStr "f") (VList [VStr "x1"; VStr "x2"])
    (VList [VStr "h"; VInt 0]) "ID:1.function.f".

Definition helper : value :=
  VFunction "function" (VStr "h") (VList [VStr "y"]) (VStr "f") "ID:2.function.h".

Definition leak_state : state :=
  initial [(VStr "f", caller); (VStr "h", helper)] ["ID:1.function.f"; "ID:2.function.h"].

(** The same with a caller of one parameter, after [(mk 5)] returned [helper]
    and so left [n = 5] in its closure; [z] is a variable of the scope the
    call is made from. *)
Definition short_caller : value :=
  VFunction "function" (VStr "f") (VList [VStr "x"])
    (VList [VStr "h"; VInt 0]) "ID:1.function.f".

Definition maker : value :=
  VFunction "function" (VStr "mk") (VList [VStr "n"]) (VStr "h") "ID:6.function.mk".

Definition overrun_state : state :=
  snd (call maker [VInt 5]
         (initial
            [(VStr "f", short_caller); (VStr "h", helper); (VStr "mk", maker);
             (VStr "z", VInt 9)]
            ["ID:1.function.f"; "ID:2.function.h"; "ID:6.function.mk"])).





(** The state after the computation [m]. *)
Definition after {A} (m : M A) (s : state) : state := snd (m s).

(** [Template(name, parameters, body)] and [t.new(args)]. *)
Definition template (name parameters body : value) : M value :=
  @datatypes.Template_init evaluator.example_host name parameters body.

Definition new (t : value) (args : value) : M value :=
  match t with
  | VTemplate name parameters _ id init =>
      @datatypes.Template_new evaluator.example_host absent name parameters id init args
  | _ => raise (Raised TypeError None)
  end.

(** A template whose constructor parameter and whose variable are both
    named [x]. *)
Definition shadow_body : value := VList [VList [VStr "var"; VStr "x"; VInt 0]].

Definition shadow_template : value :=
  VTemplate (VStr "T") (VList [VStr "x"]) shadow_body "ID:0.template.T" VNone.



(** The tokens of [''x], of ['5] and of [(quote 5)], each inside the list
    that holds a line's expressions. *)
Definition stacked_quote : value := VList [VStr "'"; VStr "'"; VStr "x"].

Definition quoted_number : value := VList [VStr "'"; VStr "5"].

Definition quote_form_number : value := VList [VList [VStr "quote"; VStr "5"]].

(** A [cond] with two clauses whose conditions are false literals. *)
Definition false_clauses : list value :=
  [VList [VBool false; VInt 1]; VList [VInt 0; VInt 2]].

(** A clause whose condition is a true literal. *)
Definition true_clause : value := VList [VBool true; VInt 7].

(** The expression [(f #t (x))]. *)
Definition written : syntax.sexp :=
  syntax.Seq [syntax.Sym "f"; syntax.Sym "#t"; syntax.Seq [syntax.Sym "x"]].

End examples.

(** * Theorems *)

(** ** Computations *)

Lemma bind_ok {A B} (m : M A) (k : A -> M B) s a s' :
  m s = (Ok a, s') -> bind m k s = k a s'.
Proof. intros E. unfold bind. rewrite E. reflexivity. Qed.

Lemma bind_err {A B} (m : M A) (k : A -> M B) s e s' :
  m s = (Err e, s') -> bind m k s = (Err e, s').
Proof. intros E. unfold bind. rewrite E. reflexivity. Qed.

Lemma bind_lift_ok {A B} (a : A) (k : A -> M B) s :
  bind (lift (Ok a)) k s = k a s.
Proof. reflexivity. Qed.

Lemma try_finally_ok {A} (m : M A) fin s r s1 s2 :
  m s = (r, s1) -> fin s1 = (Ok tt, s2) -> try_finally m fin s = (r, s2).
Proof. intros E1 E2. unfold try_finally. rewrite E1, E2. reflexivity. Qed.

(** ** Strings *)

Lemma length_list_ascii (s : string) :
  length (list_ascii_of_string s) = String.length s.
Proof. induction s as [|c s IH]; simpl; [reflexivity | now rewrite IH]. Qed.

Lemma eqb_empty_chars (s : string) :
  String.eqb s EmptyString = match list_ascii_of_string s with [] => true | _ => false end.
Proof. destruct s; reflexivity. Qed.

Lemma endswith_rev (x : string) (c c' : ascii) (r : list ascii) :
  rev (list_ascii_of_string x) = c :: r -> py.endswith x c' = Ascii.eqb c c'.
Proof. intros E. unfold py.endswith. rewrite E. reflexivity. Qed.

Lemma removesuffix_rev (x : string) (c : ascii) (r : list ascii) :
  rev (list_ascii_of_string x) = c :: r ->
  rev (list_ascii_of_string (py.removesuffix x c)) = r.
Proof.
  intros E. unfold py.removesuffix. rewrite E, Ascii.eqb_refl.
  rewrite list_ascii_of_string_of_list_ascii. apply rev_involutive.
Qed.

(** ** Car/cdr combinations *)

Section cxr.
Context `{Host}.

Lemma evcxr_steps_peel (r : list ascii) :
  forall (x : string) (n : nat) (v : value),
    rev (list_ascii_of_string x) = r ->
    length r <= n ->
    forallb (fun c => Ascii.eqb c "a"%char || Ascii.eqb c "d"%char) r = true ->
    keywords.evcxr_steps n x v = spec.peel_all r v.
Proof.
  induction r as [|c r IH]; intros x n v Hx Hn Had.
  - assert (Hnil : list_ascii_of_string x = []).
    { rewrite <- (rev_involutive (list_ascii_of_string x)), Hx. reflexivity. }
    destruct n; simpl; rewrite eqb_empty_chars, Hnil; reflexivity.
  - assert (Hne : String.eqb x EmptyString = false).
    { rewrite eqb_empty_chars.
      destruct (list_ascii_of_string x); [discriminate Hx | reflexivity]. }
    destruct n as [|n]; [simpl in Hn; lia|].
    simpl in Had. apply andb_true_iff in Had as [Hc Had].
    simpl. rewrite Hne.
    rewrite (endswith_rev x c "a" r Hx), (endswith_rev x c "d" r Hx).
    unfold spec.peel.
    destruct (Ascii.eqb c "a") eqn:Ea.
    + apply Ascii.eqb_eq in Ea. subst c.
      destruct (keywords.head v) as [h|e]; simpl; [|reflexivity].
      apply IH; [apply removesuffix_rev; exact Hx | simpl in Hn; lia | exact Had].
    + simpl in Hc. rewrite Hc. apply Ascii.eqb_eq in Hc. subst c.
      destruct (keywords.tail v) as [t|e]; simpl; [|reflexivity].
      apply IH; [apply removesuffix_rev; exact Hx | simpl in Hn; lia | exact Had].
Qed.

Lemma head_not_sequence (w : value) :
  spec.is_sequence w = false ->
  keywords.head w
  = Err (Raised TypeError
           (Some ("unsupported argument for 'car': " +:+ parser.fmt (parser.convert w)))).
Proof. destruct w; simpl; intros E; try discriminate E; reflexivity. Qed.

Lemma tail_not_sequence (w : value) :
  spec.is_sequence w = false ->
  keywords.tail w
  = Err (Raised TypeError
           (Some ("unsupported argument for 'cdr': " +:+ parser.fmt (parser.convert w)))).
Proof. destruct w; simpl; intros E; try discriminate E; reflexivity. Qed.

Lemma head_failure (v : value) (e : exn) : keywords.head v = Err e -> e = spec.car_error v.
Proof.
  unfold keywords.head. destruct (py.getitem v 0); intros E; inversion E; reflexivity.
Qed.

Lemma tail_failure (v : value) (e : exn) : keywords.tail v = Err e -> e = spec.cdr_error v.
Proof.
  unfold keywords.tail. destruct (py.slice_from v 1); intros E; inversion E; reflexivity.
Qed.

Lemma peel_all_failure (l : list ascii) :
  forall v e, spec.peel_all l v = Err e -> exists w, e = spec.car_error w \/ e = spec.cdr_error w.
Proof.
  induction l as [|c l IH]; intros v e E; simpl in E; [discriminate E|].
  unfold spec.peel in E.
  destruct (Ascii.eqb c "a").
  - destruct (keywords.head v) as [h|e'] eqn:Eh; simpl in E.
    + exact (IH _ _ E).
    + inversion E; subst e'. exists v. left. exact (head_failure _ _ Eh).
  - destruct (keywords.tail v) as [t|e'] eqn:Et; simpl in E.
    + exact (IH _ _ E).
    + inversion E; subst e'. exists v. right. exact (tail_failure _ _ Et).
Qed.

Lemma list_ascii_app (a b : string) :
  list_ascii_of_string (a +:+ b) = list_ascii_of_string a ++ list_ascii_of_string b.
Proof. induction a as [|c a IH]; simpl; [reflexivity | now rewrite IH]. Qed.

Lemma accessor_name_matches (letters : string) :
  negb (String.eqb letters EmptyString) = true ->
  forallb (fun c => Ascii.eqb c "a"%char || Ascii.eqb c "d"%char)
    (list_ascii_of_string letters) = true ->
  predicates.iscxr (VStr ("c" +:+ letters +:+ "r")) = true.
Proof.
  intros Hne Had. unfold predicates.iscxr, predicates.cxr_pattern.
  change (py.str (VStr ("c" +:+ letters +:+ "r"))) with (String "c" (letters +:+ "r")).
  change (list_ascii_of_string (String "c" (letters +:+ "r")))
    with ("c"%char :: list_ascii_of_string (letters +:+ "r")).
  rewrite list_ascii_app.
  change (list_ascii_of_string "r") with ["r"%char].
  rewrite eqb_empty_chars in Hne.
  set (l := list_ascii_of_string letters) in *.
  unfold predicates.before_dollar.
  change (rev ("c"%char :: l ++ ["r"%char])) with (rev (l ++ ["r"%char]) ++ ["c"%char]).
  rewrite rev_app_distr. simpl.
  rewrite rev_app_distr. simpl.
  rewrite length_rev.
  destruct l as [|c l']; [discriminate Hne|]. simpl negb. simpl andb.
  rewrite forallb_forall. rewrite forallb_forall in Had.
  intros x Hx. apply Had. apply in_rev. exact Hx.
Qed.

(** C7. An accessor name made of [c], letters (one or more, each [a] or
    [d]) and [r] matches the pattern of car/cdr combinations; on its letters
    [evcxr] peels a head for each [a] and a tail for each [d], taking the
    letters from the right; it fails only with the [TypeError] that names ['car'] or ['cdr'],
    and peeling a value that is not a sequence does fail, with ['car'] for a
    head and ['cdr'] for a tail; the letters [ad] applied to the list (1 2 3)
    give 2. *)
Theorem evcxr_peels_right_to_left (letters : string) (v : value) :
  spec.accessor_letters letters = true ->
  predicates.iscxr (VStr ("c" +:+ letters +:+ "r")) = true
  /\ keywords.evcxr letters v
     = spec.peel_all (rev (list_ascii_of_string letters)) v
  /\ (forall e, keywords.evcxr letters v = Err e ->
        exists w, e = spec.car_error w \/ e = spec.cdr_error w)
  /\ (forall w, spec.is_sequence w = false ->
        keywords.head w = Err (spec.car_error w) /\ keywords.tail w = Err (spec.cdr_error w))
  /\ keywords.evcxr "ad" (VList [VInt 1; VInt 2; VInt 3]) = Ok (VInt 2).
Proof.
  intros Hl. unfold spec.accessor_letters in Hl.
  apply andb_true_iff in Hl as [Hne Had].
  split; [apply accessor_name_matches; assumption|].
  assert (Heq : keywords.evcxr letters v
                = spec.peel_all (rev (list_ascii_of_string letters)) v).
  { unfold keywords.evcxr. apply evcxr_steps_peel.
    - reflexivity.
    - rewrite length_rev, length_list_ascii. lia.
    - rewrite forallb_forall in Had |- *. intros c Hc.
      apply Had. apply in_rev. exact Hc. }
  split; [exact Heq|]. split; [|split].
  - intros e E. rewrite Heq in E. exact (peel_all_failure _ _ _ E).
  - intros w Hw. split; [apply head_not_sequence | apply tail_not_sequence]; exact Hw.
  - reflexivity.
Qed.

End cxr.

(** ** Special forms of keywords.py *)

Section forms.
Context `{Host} `{Absent}.

Lemma cond_skips_false_clause clause rest c v s s1 :
  py.getitem clause 0 = Ok c ->
  py.is_str c "else" = false ->
  evaluate c s = (Ok v, s1) ->
  py.truthy v = false ->
  keywords.cond (clause :: rest) s = keywords.cond rest s1.
Proof.
  intros Hc Helse Hev Hv. simpl.
  rewrite Hc, bind_lift_ok, Helse.
  unfold bind at 1. unfold bind at 1. rewrite Hev. unfold ret. rewrite Hv.
  reflexivity.
Qed.

(** C10. A [cond] whose clauses all have a condition that evaluates to a
    false value, none headed by [else], returns no value: it raises the
    host's [IndexError], which is none of the kinds of the specified
    taxonomy, in the state the evaluation of the last condition left. *)
Theorem cond_without_true_clause_raises_IndexError (expr : list value) (s s' : state) :
  spec.all_conditions_false expr s s' ->
  keywords.cond expr s = (Err (Raised IndexError None), s')
  /\ in_taxonomy (kind (Raised IndexError None)) = false.
Proof.
  intros Hall. split; [|reflexivity].
  induction Hall as [s | clause rest c v s s1 s2 Hc Helse Hev Hv Hrest IH].
  - reflexivity.
  - rewrite (cond_skips_false_clause clause rest c v s s1 Hc Helse Hev Hv). exact IH.
Qed.

(** C9. [global] called with a false value argument ([None], 0, [#f], the
    empty list, ...) changes nothing, the global store included, and returns
    what the store holds for the name; for a name the store does not hold it
    raises nothing and returns the class [ValueError] itself. *)
Theorem globals_with_false_value_reads (var : string) (val : value) (s : state) :
  py.truthy val = false ->
  keywords.globals (VStr var) val s
  = (Ok (default VValueError (py.dict_get (GLOBALS s) (VStr var))), s)
  /\ (py.dict_get (GLOBALS s) (VStr var) = None ->
      keywords.globals (VStr var) val s = (Ok VValueError, s))
  /\ py.truthy (VInt 0) = false /\ py.truthy (VBool false) = false
  /\ py.truthy (VList []) = false /\ py.truthy VNone = false.
Proof.
  intros Hval.
  assert (E : keywords.globals (VStr var) val s
              = (Ok (default VValueError (py.dict_get (GLOBALS s) (VStr var))), s)).
  { unfold keywords.globals. rewrite Hval. reflexivity. }
  split; [exact E|]. split.
  - intros Hnone. rewrite E, Hnone. reflexivity.
  - repeat split; reflexivity.
Qed.

End forms.

(** ** Environments *)







(** ** Function calls *)

Section calls.
Context `{Host} `{Absent}.

Lemma closure_some id s c : CLOSURES s !! id = Some c -> environment.closure id s = (Ok c, s).
Proof. intros E. unfold environment.closure. rewrite E. reflexivity. Qed.

Lemma on_closure_ok id f s c c' :
  CLOSURES s !! id = Some c -> f c = Ok c' ->
  environment.on_closure id f s = (Ok tt, with_CLOSURES (<[id := c']> (CLOSURES s)) s).
Proof.
  intros E F. unfold environment.on_closure.
  rewrite (bind_ok _ _ _ _ _ (closure_some _ _ _ E)), F. reflexivity.
Qed.

Lemma enter_ok type parameters body id args s c0 ps :
  CLOSURES s !! id = Some c0 ->
  py.iter parameters = Ok ps ->
  length ps = length args ->
  datatypes.enter type parameters body id args s
  = (Ok tt, call.entry_state id (call.entry_closure type parameters body c0 ps args) s).
Proof.
  intros Hc Hp Hl. unfold datatypes.enter.
  erewrite bind_ok; cycle 1.
  { apply (on_closure_ok _ _ _ c0 (c0 ++ zip ps args)); [exact Hc|].
    rewrite Hp. simpl. unfold environment.match_arguments.
    rewrite Hl, Nat.eqb_refl. reflexivity. }
  unfold call.entry_closure, call.entry_state.
  destruct (datatypes.binds_self type).
  - erewrite bind_ok; cycle 1.
    { eapply on_closure_ok; [apply lookup_insert_eq | reflexivity]. }
    erewrite bind_ok; cycle 1.
    { apply closure_some. apply lookup_insert_eq. }
    unfold environment.on_ENV, modify, environment.extend. simpl.
    rewrite insert_insert_eq. reflexivity.
  - rewrite (bind_ok _ _ _ tt _ eq_refl).
    erewrite bind_ok; cycle 1.
    { apply closure_some. apply lookup_insert_eq. }
    reflexivity.
Qed.

Lemma with_CLOSURES_same (s : state) : with_CLOSURES (CLOSURES s) s = s.
Proof. destruct s; reflexivity. Qed.

Lemma registry_after_body_lookup (r : outcome value) (id : string)
  (c : list (value * value)) (registry : gmap string (list (value * value))) :
  registry !! id = Some c ->
  call.registry_after_body r c registry !! id = Some c.
Proof.
  intros E. unfold call.registry_after_body.
  destruct r as [v|e]; [|exact E].
  destruct v; try exact E.
  destruct (decide (id0 = id)) as [->|Hne].
  - apply lookup_insert_eq.
  - rewrite lookup_insert_ne; [exact E | exact Hne].
Qed.

Lemma run_body_result body id s1 r s2 c2 :
  evaluate body s1 = (r, s2) ->
  CLOSURES s2 !! id = Some c2 ->
  datatypes.run_body body id s1
  = (r, with_CLOSURES (call.registry_after_body r c2 (CLOSURES s2)) s2).
Proof.
  intros Hev Hc. unfold datatypes.run_body.
  destruct r as [v|e].
  - rewrite (bind_ok _ _ _ _ _ Hev).
    destruct v; simpl; try (rewrite with_CLOSURES_same; reflexivity).
    erewrite bind_ok; cycle 1.
    { erewrite bind_ok; [|apply closure_some; exact Hc]. reflexivity. }
    reflexivity.
  - rewrite (bind_err _ _ _ _ _ Hev). simpl. rewrite with_CLOSURES_same. reflexivity.
Qed.

Lemma unwind_result type id s c :
  CLOSURES s !! id = Some c ->
  datatypes.unwind type id s
  = (Ok tt, with_ENV (environment.end_scope (length c) (ENV s))
              (with_CLOSURES (call.registry_after_unwind type id c (CLOSURES s)) s)).
Proof.
  intros Hc. unfold datatypes.unwind, call.registry_after_unwind.
  rewrite (bind_ok _ _ _ _ _ (closure_some _ _ _ Hc)).
  unfold environment.on_ENV, modify, bind.
  destruct (datatypes.binds_self type).
  - erewrite on_closure_ok; [|exact Hc|reflexivity]. reflexivity.
  - unfold ret. rewrite with_CLOSURES_same. reflexivity.
Qed.

Lemma logic_result type parameters body id args s c0 ps r s2 c2 :
  CLOSURES s !! id = Some c0 ->
  py.iter parameters = Ok ps ->
  length ps = length args ->
  evaluate body
    (call.entry_state id (call.entry_closure type parameters body c0 ps args) s)
  = (r, s2) ->
  CLOSURES s2 !! id = Some c2 ->
  datatypes.logic type parameters body id args s = (r, call.exit_state type id r c2 s2).
Proof.
  intros Hc Hp Hl Hev Hc2. unfold datatypes.logic.
  rewrite (bind_ok _ _ _ _ _ (enter_ok type parameters body id args s c0 ps Hc Hp Hl)).
  eapply try_finally_ok.
  - apply run_body_result; eassumption.
  - rewrite (unwind_result type id _ c2).
    + reflexivity.
    + simpl. apply registry_after_body_lookup. exact Hc2.
Qed.
Lemma runlocal_result {A} (id : string) (m : M A) s c0 r s3 :
  CLOSURES s !! id = Some c0 ->
  m s = (r, s3) ->
  environment.runlocal id m s = (r, call.teardown id (length c0) s3).
Proof.
  intros Hc Hm. unfold environment.runlocal.
  rewrite (bind_ok _ _ _ _ _ (closure_some _ _ _ Hc)).
  unfold try_finally, modify, call.teardown. rewrite Hm. reflexivity.
Qed.

Lemma len_of_iter (v : value) (l : list value) :
  py.iter v = Ok l -> py.len v = Ok (length l).
Proof.
  destruct v; simpl; intros E; inversion E; subst; try reflexivity.
  rewrite length_map, length_list_ascii. reflexivity.
Qed.

Lemma Function_eval_arguments type name parameters body id args s vals s0 n :
  call.evaluated_arguments args s = (Ok vals, s0) ->
  py.len parameters = Ok n ->
  datatypes.Function_eval type name parameters body id args s
  = if negb (Nat.eqb n (length vals))
    then (Err (Raised TypeError (Some (datatypes.arity_message name n (length vals)))), s0)
    else environment.runlocal id (datatypes.logic type parameters body id vals) s0.
Proof.
  intros Hargs Hn. unfold datatypes.Function_eval.
  fold (call.evaluated_arguments args).
  rewrite (bind_ok _ _ _ _ _ Hargs), Hn, bind_lift_ok.
  destruct (negb (Nat.eqb n (length vals))); reflexivity.
Qed.

(** C2, as the code has it.  When the number of evaluated arguments differs
    from the number of declared parameters the call raises a [TypeError] whose
    message names the function, the expected count and the given count, and
    it does so in the state the evaluation of the arguments left: no parameter
    is bound, no ['self'], and the active environment is not extended. *)
Theorem arity_mismatch_raises_TypeError_before_any_binding
  type name parameters body id args s vals s0 n :
  call.evaluated_arguments args s = (Ok vals, s0) ->
  py.len parameters = Ok n ->
  n <> length vals ->
  datatypes.Function_eval type name parameters body id args s
  = (Err (Raised TypeError
            (Some (py.str name +:+ " takes " +:+ pretty n +:+ " argument"
                   +:+ (if Nat.eqb n 1 then EmptyString else "s")
                   +:+ " but " +:+ pretty (length vals) +:+ " were given"))), s0).
Proof.
  intros Hargs Hn Hne.
  rewrite (Function_eval_arguments _ _ _ _ _ _ _ _ _ _ Hargs Hn).
  apply Nat.eqb_neq in Hne. rewrite Hne. reflexivity.
Qed.

Lemma Function_eval_result type name parameters body id args s vals s0 c0 ps r s2 c2 :
  call.evaluated_arguments args s = (Ok vals, s0) ->
  CLOSURES s0 !! id = Some c0 ->
  py.iter parameters = Ok ps ->
  length ps = length vals ->
  evaluate body
    (call.entry_state id (call.entry_closure type parameters body c0 ps vals) s0)
  = (r, s2) ->
  CLOSURES s2 !! id = Some c2 ->
  datatypes.Function_eval type name parameters body id args s
  = (r, call.teardown id (length c0) (call.exit_state type id r c2 s2)).
Proof.
  intros Hargs Hc Hp Hl Hev Hc2.
  rewrite (Function_eval_arguments _ _ _ _ _ _ _ _ _ _ Hargs (len_of_iter _ _ Hp)).
  rewrite Hl, Nat.eqb_refl. simpl.
  apply (runlocal_result id _ s0 c0); [exact Hc|].
  apply (logic_result type parameters body id vals s0 c0 ps); assumption.
Qed.

Lemma ENV_teardown id n s : ENV (call.teardown id n s) = ENV s.
Proof. unfold call.teardown. destruct (CLOSURES s !! id); reflexivity. Qed.

Lemma ENV_exit_state type id r c s :
  ENV (call.exit_state type id r c s) = environment.end_scope (length c) (ENV s).
Proof. reflexivity. Qed.

(** The unwinding restores the active environment when the evaluation of the
    body kept its count of bindings and that of the function's closure. *)
Lemma call_restores_active_environment
  type name parameters body id args s vals s0 c0 ps r s2 c2 :
  call.evaluated_arguments args s = (Ok vals, s0) ->
  CLOSURES s0 !! id = Some c0 ->
  py.iter parameters = Ok ps ->
  length ps = length vals ->
  let c1 := call.entry_closure type parameters body c0 ps vals in
  evaluate body (call.entry_state id c1 s0) = (r, s2) ->
  CLOSURES s2 !! id = Some c2 ->
  length c2 = length c1 ->
  length (ENV s2) = length (ENV s0 ++ c1) ->
  exists s', datatypes.Function_eval type name parameters body id args s = (r, s')
    /\ ENV s' = take (length (ENV s0)) (ENV s2)
    /\ length (ENV s') = length (ENV s0).
Proof.
  intros Hargs Hc Hp Hl c1 Hev Hc2 Hlc Hle.
  eexists. split.
  - eapply Function_eval_result; eassumption.
  - rewrite ENV_teardown, ENV_exit_state. unfold environment.end_scope.
    rewrite Hle, Hlc, length_app.
    replace (length (ENV s0) + length c1 - length c1) with (length (ENV s0)) by lia.
    split; [reflexivity|].
    rewrite length_take, Hle, length_app. lia.
Qed.





End calls.

(** ** Function calls on closed inputs *)

(** C1, at two failing inputs.  [caller] has two parameters and its body
    calls [helper], which has one parameter and returns [caller] itself.
    [helper] returning [caller] makes the registry entry of [caller] a copy of
    the closure of [helper] (one binding); the [finally] block of [caller]
    then removes as many bindings as that entry holds, one, from an active
    environment it had extended by two: the call ends normally and the active
    environment has one binding more than before it.  With a caller of one
    parameter and a [helper] whose closure already holds a captured variable,
    the entry holds two bindings at the exit: the call removes two bindings
    from an active environment it had extended by one, and the binding of
    [z], which belongs to the scope the call was made from, is gone. *)
Theorem nested_return_of_the_caller_unbalances_the_unwinding :
  (exists s',
     examples.call examples.caller [VInt 1; VInt 2] examples.leak_state
     = (Ok examples.caller, s')
     /\ ENV s' = ENV examples.leak_state ++ [(VStr "x1", VInt 1)]
     /\ length (ENV s') = S (length (ENV examples.leak_state)))
  /\ (exists s',
        examples.call examples.short_caller [VInt 1] examples.overrun_state
        = (Ok examples.short_caller, s')
        /\ CLOSURES examples.overrun_state !! "ID:2.function.h" = Some [(VStr "n", VInt 5)]
        /\ ENV examples.overrun_state = ENV s' ++ [(VStr "z", VInt 9)]
        /\ S (length (ENV s')) = length (ENV examples.overrun_state)).
Proof.
  split.
  - eexists. split; [vm_compute; reflexivity|].
    split; reflexivity.
  - eexists. split; [vm_compute; reflexivity|].
    split; [vm_compute; reflexivity|].
    split; vm_compute; reflexivity.
Qed.

(** C2, counterexample.  A function of one parameter called with two
    arguments does not fail with an [ArityError]: what it raises is a
    [TypeError]. *)
Lemma arity_mismatch_is_not_an_ArityError :
  let r := fst (examples.call examples.unary [VInt 1; VInt 2]
                  (examples.initial [] ["ID:7.function.f"])) in
  r = Err (Raised TypeError (Some "f takes 1 argument but 2 were given"))
  /\ ~ (exists d, r = Err (Raised ArityError d)).
Proof.
  assert (E : fst (examples.call examples.unary [VInt 1; VInt 2]
                     (examples.initial [] ["ID:7.function.f"]))
              = Err (Raised TypeError (Some "f takes 1 argument but 2 were given")))
    by (vm_compute; reflexivity).
  split; [exact E|].
  intros [d Hd]. cbv zeta in Hd. rewrite E in Hd. discriminate Hd.
Qed.

Lemma arity_mismatch_raises_TypeError_before_any_binding_witness :
  examples.call examples.unary [VInt 1; VInt 2] (examples.initial [] ["ID:7.function.f"])
  = (Err (Raised TypeError (Some "f takes 1 argument but 2 were given")),
     examples.initial [] ["ID:7.function.f"]).
Proof.
  apply (@arity_mismatch_raises_TypeError_before_any_binding
           evaluator.example_host examples.absent
           "function" (VStr "f") (VList [VStr "x"]) (VStr "x") "ID:7.function.f"
           (Some [VInt 1; VInt 2]) (examples.initial [] ["ID:7.function.f"])
           [VInt 1; VInt 2] (examples.initial [] ["ID:7.function.f"]) 1).
  - reflexivity.
  - reflexivity.
  - simpl. lia.
Defined.




(** A lambda whose body reads an unbound variable: the call fails with the
    [NameError] of the body, and the active environment and the function's
    closure are as before the call, ['self'] included. *)
Example failed_body_is_unwound :
  examples.call examples.failing [VInt 1]
    (examples.initial [(VStr "z", VInt 9)] ["ID:9.lambda.lambda"])
  = (Err (Raised NameError None),
     examples.initial [(VStr "z", VInt 9)] ["ID:9.lambda.lambda"]).
Proof. vm_compute. reflexivity. Qed.

(** ** Templates and instances *)

Section templates.
Context `{Host} `{Absent}.

Lemma Closable_init_result type name parameters body s :
  datatypes.Closable_init type name parameters body s
  = (Ok (datatypes.or_empty parameters, datatypes.or_empty body, call.next_id type name s),
     with_CLOSURES (<[call.next_id type name s := []]> (CLOSURES s))
       (with_draws (S (draws s)) s)).
Proof. reflexivity. Qed.


(** *** Dictionaries *)

Lemma eqb_str_right (k : value) (n : string) : py.eqb k (VStr n) = true -> k = VStr n.
Proof.
  destruct k; simpl; try discriminate.
  intros E. apply String.eqb_eq in E. subst. reflexivity.
Qed.




(** *** The variables of a template *)









(** *** The methods of a template *)











(** *** The init sequence *)






End templates.

(** ** Quotes *)

Section quotes.
Context `{Host}.

(** A quote mark before a list datum becomes the [quote] form of the
    preprocessed datum. *)
Lemma preprocess_quote_mark_before_list (l : list value) :
  parser.preprocess (VList [VStr "'"; VList l])
  = let? x := parser.preprocess (VList l) in Ok (VList [VList [VStr "quote"; x]]).
Proof.
  simpl. destruct (parser.preprocess (VList l)) as [x|e] eqn:E.
  - simpl in E. rewrite E. reflexivity.
  - simpl in E. rewrite E. reflexivity.
Qed.

(** A quote mark before an atom wraps the atom as it stands, be it a number
    token or a second quote mark. *)
Lemma preprocess_quote_mark_before_atom (x : value) :
  py.is_list x = false ->
  parser.preprocess (VList [VStr "'"; x]) = Ok (VList [VList [VStr "quote"; x]]).
Proof. destruct x; simpl; intros E; try discriminate E; reflexivity. Qed.

(** The model of [evaluate] returns the datum of a [quote] form as it is and
    leaves the state alone. *)
Lemma quote_returns_its_datum (depth : nat) (x : value) (s : state) :
  evaluator.evaluate_depth (S depth) (VList [VStr "quote"; x]) s = (Ok x, s).
Proof. reflexivity. Qed.

End quotes.

Example quoted_list_is_the_quote_form :
  @parser.preprocess evaluator.example_host
    (VList [VStr "'"; VList [VStr "a"; VStr "b"; VStr "c"]])
  = @parser.preprocess evaluator.example_host
      (VList [VList [VStr "quote"; VList [VStr "a"; VStr "b"; VStr "c"]]])
  /\ evaluate (Absent := examples.absent)
       (VList [VStr "quote"; VList [VStr "a"; VStr "b"; VStr "c"]]) (examples.initial [] [])
     = (Ok (VList [VStr "a"; VStr "b"; VStr "c"]), examples.initial [] []).
Proof. split; reflexivity. Qed.

(** ** Templates, quotes and forms on closed inputs *)





(** C8, at a failing input.  The tokens of [''x] are not desugared to
    [(quote (quote x))]: the second quote mark is taken for the datum of the
    first and [x] is left behind it.  And the atom after a quote mark is not
    retyped: ['5] becomes the quote of the string, where [(quote 5)] is the
    quote of the number. *)
Theorem stacked_quote_is_not_desugared :
  @parser.preprocess evaluator.example_host examples.stacked_quote
  = Ok (VList [VList [VStr "quote"; VStr "'"]; VStr "x"])
  /\ @parser.preprocess evaluator.example_host examples.stacked_quote
     <> Ok (VList [VList [VStr "quote"; VList [VStr "quote"; VStr "x"]]])
  /\ @parser.preprocess evaluator.example_host examples.quoted_number
     = Ok (VList [VList [VStr "quote"; VStr "5"]])
  /\ @parser.preprocess evaluator.example_host examples.quote_form_number
     = Ok (VList [VList [VStr "quote"; VInt 5]]).
Proof.
  split; [reflexivity|]. split; [|split; reflexivity].
  intros E. vm_compute in E. discriminate E.
Qed.

Lemma evcxr_peels_right_to_left_witness :
  @keywords.evcxr evaluator.example_host "ad" (VList [VInt 1; VInt 2; VInt 3])
  = @spec.peel_all evaluator.example_host ["d"%char; "a"%char]
      (VList [VInt 1; VInt 2; VInt 3]).
Proof.
  exact (proj1 (proj2 (@evcxr_peels_right_to_left evaluator.example_host "ad"
                         (VList [VInt 1; VInt 2; VInt 3]) eq_refl))).
Defined.

Lemma globals_with_false_value_reads_witness :
  @keywords.globals examples.absent (VStr "x") (VInt 0) (examples.initial [] [])
  = (Ok VValueError, examples.initial [] []).
Proof.
  exact (proj1 (@globals_with_false_value_reads examples.absent "x" (VInt 0)
                  (examples.initial [] []) eq_refl)).
Defined.

Lemma cond_without_true_clause_raises_IndexError_witness :
  @keywords.cond examples.absent examples.false_clauses (examples.initial [] [])
  = (Err (Raised IndexError None), examples.initial [] []).
Proof.
  apply (proj1 (@cond_without_true_clause_raises_IndexError examples.absent
                  examples.false_clauses (examples.initial [] []) (examples.initial [] [])
                  ltac:(repeat (eapply spec.acf_cons; [reflexivity | reflexivity
                                                      | reflexivity | reflexivity |]);
                        apply spec.acf_nil))).
Defined.

(** Two instances of one template: a variable set in the first changes
    neither the second nor the template. *)
Example instances_are_independent :
  let s1 := examples.after
              (examples.template (VStr "T") (VList [VStr "x"]) examples.shadow_body)
              (examples.initial [] []) in
  let s2 := examples.after (examples.new examples.shadow_template (VList [VInt 5])) s1 in
  let s3 := examples.after (examples.new examples.shadow_template (VList [VInt 6])) s2 in
  let s4 := examples.after
              (environment.on_closure "ID:1.instance.T"
                 (fun c => Ok (environment.set (VStr "x") (VInt 7) c))) s3 in
  CLOSURES s4 !! "ID:1.instance.T" = Some [(VStr "x", VInt 5); (VStr "x", VInt 7)]
  /\ CLOSURES s4 !! "ID:2.instance.T" = Some [(VStr "x", VInt 6); (VStr "x", VInt 0)]
  /\ CLOSURES s4 !! "ID:0.template.T" = Some [(VStr "x", VInt 0)].
Proof. cbv zeta. repeat split; vm_compute; reflexivity. Qed.

(** * Further properties of the sources *)

(** ** Lists: cons, car, cdr and ref *)

Section sequences.
Context `{Host}.

(** X1. What [cons] returns is a list whose head is the first argument and
    whose tail is the second, which was a list; its element 0 is the first
    argument and it is not the null list. *)
Theorem car_and_cdr_invert_cons (x y c : value) :
  keywords.cons x y = Ok c ->
  py.is_list y = true
  /\ keywords.head c = Ok x /\ keywords.tail c = Ok y
  /\ keywords.ref c (VInt 0) = Ok x /\ keywords.isnull c = false.
Proof.
  unfold keywords.cons. destruct y as [| | | | |l| | | |]; intros E; try discriminate E.
  injection E as <-. repeat split; reflexivity.
Qed.

Lemma substring_all (s : string) : String.substring 0 (String.length s) s = s.
Proof. induction s as [|c s IH]; simpl; [reflexivity | now rewrite IH]. Qed.

(** X2. On an empty list or string [tail] returns the empty sequence it was
    given, while [head] raises the [TypeError] that names ['car']. *)
Theorem cdr_of_empty_sequence_is_empty (v : value) :
  py.len v = Ok 0 ->
  keywords.tail v = Ok v /\ keywords.head v = Err (spec.car_error v).
Proof.
  destruct v as [| | | |s|l| | | |]; simpl; intros E; try discriminate E.
  - destruct s; [split; reflexivity | discriminate E].
  - destruct l; [split; reflexivity | discriminate E].
Qed.

Lemma get_substring_tail (s : string) (i : nat) :
  String.get i (String.substring 1 (String.length s - 1) s) = String.get (S i) s.
Proof.
  destruct s as [|c s]; [reflexivity|].
  simpl. rewrite Nat.sub_0_r.
  change (String.get i (String.substring 0 (String.length s) s) = String.get i s).
  now rewrite substring_all.
Qed.

(** X3. On every list or string [tail] succeeds, with a sequence of the same
    kind whose element [i] is element [i + 1] of the argument (and is missing
    when that one is); [head] is element 0. *)
Theorem cdr_shifts_the_elements (v : value) :
  spec.is_sequence v = true ->
  exists t,
    keywords.tail v = Ok t
    /\ py.is_list t = py.is_list v
    /\ (forall i, py.getitem t i = py.getitem v (S i))
    /\ (forall x, py.getitem v 0 = Ok x -> keywords.head v = Ok x).
Proof.
  assert (Hhead : forall x, py.getitem v 0 = Ok x -> keywords.head v = Ok x).
  { intros x Hx. unfold keywords.head. now rewrite Hx. }
  destruct v as [| | | |s|l| | | |]; simpl; intros E; try discriminate E.
  - eexists. split; [reflexivity|]. split; [reflexivity|]. split; [|exact Hhead].
    intros i. simpl. now rewrite get_substring_tail.
  - eexists. split; [reflexivity|]. split; [reflexivity|]. split; [|exact Hhead].
    intros i. simpl. now rewrite lookup_drop.
Qed.

(** X4. [ref] on a list with an integer index [z]: it succeeds exactly when
    [-len <= z < len], with the element at position [z mod len] (a negative
    index counts from the end), and fails with [IndexError] only. *)
Theorem ref_counts_from_either_end (l : list value) (z : Z) :
  ((- Z.of_nat (length l) <= z < Z.of_nat (length l))%Z
   <-> exists x, keywords.ref (VList l) (VInt z) = Ok x)
  /\ (forall x, keywords.ref (VList l) (VInt z) = Ok x ->
        l !! Z.to_nat (z mod Z.of_nat (length l)) = Some x)
  /\ (forall e, keywords.ref (VList l) (VInt z) = Err e -> e = Raised IndexError None).
Proof.
  unfold keywords.ref, py.subscript. cbn [py.len py.index obind py.getitem].
  set (n := Z.of_nat (length l)).
  assert (Hn : (0 <= n)%Z) by (unfold n; lia).
  destruct (z <? 0)%Z eqn:Ez.
  - apply Z.ltb_lt in Ez.
    destruct (z + n <? 0)%Z eqn:Ez'.
    + apply Z.ltb_lt in Ez'. split; [|split].
      * split; [lia | intros [x E]; discriminate E].
      * intros x E; discriminate E.
      * intros e E. now inversion E.
    + apply Z.ltb_ge in Ez'.
      assert (Hlt : Z.to_nat (z + n) < length l) by (unfold n in *; lia).
      destruct (lookup_lt_is_Some_2 l _ Hlt) as [x Hx]. rewrite Hx.
      split; [|split].
      * split; [intros _; eexists; reflexivity | lia].
      * intros x' E. injection E as <-.
        replace (z mod n)%Z with (z + n)%Z; [exact Hx|].
        symmetry. rewrite <- (Z.mod_add z 1 n) by lia.
        rewrite Z.mul_1_l. apply Z.mod_small. lia.
      * intros e E; discriminate E.
  - rewrite Ez. apply Z.ltb_ge in Ez.
    destruct (l !! Z.to_nat z) as [x|] eqn:Hx.
    + assert (Hlt : Z.to_nat z < length l) by (apply lookup_lt_is_Some; eauto).
      split; [|split].
      * split; [intros _; eexists; reflexivity | unfold n; lia].
      * intros x' E. injection E as <-.
        rewrite Z.mod_small by (unfold n; lia). exact Hx.
      * intros e E; discriminate E.
    + apply lookup_ge_None in Hx. split; [|split].
      * split; [unfold n; lia | intros [x E]; discriminate E].
      * intros x E; discriminate E.
      * intros e E. now inversion E.
Qed.

Lemma peel_all_app (a b : list ascii) (v : value) :
  spec.peel_all (a ++ b) v = (let? w := spec.peel_all a v in spec.peel_all b w).
Proof.
  revert v. induction a as [|c a IH]; intros v; simpl; [reflexivity|].
  destruct (spec.peel c v); simpl; [apply IH | reflexivity].
Qed.

Lemma evcxr_peel_all (x : string) (v : value) :
  forallb (fun c => Ascii.eqb c "a"%char || Ascii.eqb c "d"%char) (list_ascii_of_string x) = true ->
  keywords.evcxr x v = spec.peel_all (rev (list_ascii_of_string x)) v.
Proof.
  intros Had. unfold keywords.evcxr. apply evcxr_steps_peel.
  - reflexivity.
  - rewrite length_rev, length_list_ascii. lia.
  - rewrite forallb_forall in Had |- *. intros c Hc. apply Had. apply in_rev. exact Hc.
Qed.

(** X5. Accessor letters compose: on letters [a] followed by letters [b]
    (each an [a] or a [d]) [evcxr] is [evcxr] on [b], then [evcxr] on [a]
    applied to its result; a failure of the first is the failure of the
    whole. *)
Theorem evcxr_composes (a b : string) (v : value) :
  forallb (fun c => Ascii.eqb c "a"%char || Ascii.eqb c "d"%char) (list_ascii_of_string a) = true ->
  forallb (fun c => Ascii.eqb c "a"%char || Ascii.eqb c "d"%char) (list_ascii_of_string b) = true ->
  keywords.evcxr (a +:+ b) v = (let? w := keywords.evcxr b v in keywords.evcxr a w).
Proof.
  intros Ha Hb.
  rewrite (evcxr_peel_all (a +:+ b)), (evcxr_peel_all b) by
    (try rewrite list_ascii_app; try rewrite forallb_app; try rewrite Ha; assumption).
  rewrite list_ascii_app, rev_app_distr, peel_all_app.
  destruct (spec.peel_all (rev (list_ascii_of_string b)) v); simpl; [|reflexivity].
  symmetry. apply evcxr_peel_all. exact Ha.
Qed.

End sequences.

(** ** Evaluation order of the special forms *)

Section evaluation_order.
Context `{Host} `{Absent}.

Lemma mapM_app {A B} (f : A -> M B) (a b : list A) (s : state) :
  mapM f (a ++ b) s
  = (let! x := mapM f a in let! y := mapM f b in ret (x ++ y)) s.
Proof.
  revert s. induction a as [|u a IH]; intros s; simpl.
  - unfold bind, ret. simpl. destruct (mapM f b s) as [[y|e] s']; reflexivity.
  - unfold bind at 1 3 4. destruct (f u s) as [[v|e] s1]; [|reflexivity].
    unfold bind at 1. rewrite IH.
    unfold bind, ret. destruct (mapM f a s1) as [[x|e] s2]; [|reflexivity].
    destruct (mapM f b s2) as [[y|e] s3]; reflexivity.
Qed.

Lemma mapM_length {A B} (f : A -> M B) (a : list A) :
  forall s vs s', mapM f a s = (Ok vs, s') -> length vs = length a.
Proof.
  induction a as [|u a IH]; intros s vs s'; simpl.
  - intros E. inversion E. reflexivity.
  - unfold bind at 1. destruct (f u s) as [[v|e] s1]; [|discriminate].
    unfold bind at 1. destruct (mapM f a s1) as [[x|e] s2] eqn:Ea; [|discriminate].
    intros E. inversion E; subst. simpl. f_equal. exact (IH _ _ _ Ea).
Qed.

(** X6. [evlist] evaluates from left to right: on a concatenation it is
    [evlist] on the first part, then [evlist] on the second from the state the
    first left, the results concatenated; a failure in the first part skips
    the second.  A list of results has the length of the list evaluated. *)
Theorem evlist_evaluates_left_to_right (a b : list value) (s : state) :
  keywords.evlist (a ++ b) s
  = (let! x := keywords.evlist a in let! y := keywords.evlist b in ret (x ++ y)) s
  /\ (forall e s', keywords.evlist a s = (Err e, s') -> keywords.evlist (a ++ b) s = (Err e, s'))
  /\ (forall vs s', keywords.evlist a s = (Ok vs, s') -> length vs = length a).
Proof.
  assert (E : keywords.evlist (a ++ b) s
    = (let! x := keywords.evlist a in let! y := keywords.evlist b in ret (x ++ y)) s).
  { apply mapM_app. }
  split; [exact E|]. split.
  - intros e s' Ea. rewrite E. apply bind_err. exact Ea.
  - intros vs s'. apply mapM_length.
Qed.

(** X7. [cond] takes the first clause whose head is [else] or whose
    condition evaluates to a true value: after clauses whose conditions
    evaluated to false values, it evaluates that clause's second element (an
    [IndexError] if it has none) in the state the conditions left, and never
    looks at the clauses that follow. *)
Theorem cond_takes_the_first_true_clause
  (pre post : list value) (clause c v : value) (s s1 s2 : state) :
  spec.all_conditions_false pre s s1 ->
  py.getitem clause 0 = Ok c ->
  (py.is_str c "else" = true /\ s2 = s1)
  \/ (py.is_str c "else" = false /\ evaluate c s1 = (Ok v, s2) /\ py.truthy v = true) ->
  keywords.cond (pre ++ clause :: post) s
  = (let! body := lift (py.getitem clause 1) in evaluate body) s2.
Proof.
  intros Hpre Hc Hchosen.
  induction Hpre as [s | cl rest c' v' s s1 s1' Hc' Helse Hev Hv Hrest IH].
  - simpl. rewrite Hc, bind_lift_ok.
    destruct Hchosen as [[Helse ->] | (Helse & Hev & Hv)]; rewrite Helse.
    + reflexivity.
    + unfold bind at 1. unfold bind at 1. rewrite Hev. unfold ret. rewrite Hv. reflexivity.
  - change ((cl :: rest) ++ clause :: post) with (cl :: (rest ++ clause :: post)).
    rewrite (cond_skips_false_clause cl _ c' v' s s1 Hc' Helse Hev Hv).
    apply IH. exact Hchosen.
Qed.

Lemma times_invariant {A} (P : state -> Prop) (m : M A) :
  (forall s, P s -> P (snd (m s))) ->
  forall k s, P s -> P (snd (keywords.times k m s)).
Proof.
  intros Hm. induction k as [|k IH]; intros s Hs; simpl; [exact Hs|].
  unfold bind. specialize (Hm s Hs).
  destruct (m s) as [[a|e] s1]; simpl in Hm; [apply IH; exact Hm | exact Hm].
Qed.

(** X8. [repeat] evaluates the count once, then the body: with a count that
    is zero or negative the body is never evaluated and the result is [None]
    in the state the count left; with a count that is not an integer the
    result is a [TypeError], again without evaluating the body.  A property
    of the state that every evaluation of the body keeps holds after the
    loop when it held after the count. *)
Theorem repeat_evaluates_the_body_count_times
  (number body n : value) (s s1 : state) (P : state -> Prop) :
  evaluate number s = (Ok n, s1) ->
  (forall z, n = VInt z -> (z <= 0)%Z -> keywords.repeat number body s = (Ok VNone, s1))
  /\ (keywords.range_count n = Err (Raised TypeError None) ->
      keywords.repeat number body s = (Err (Raised TypeError None), s1))
  /\ ((forall s0, P s0 -> P (snd (evaluate body s0))) -> P s1 ->
      P (snd (keywords.repeat number body s))).
Proof.
  intros Hn. unfold keywords.repeat. rewrite (bind_ok _ _ _ _ _ Hn).
  split; [|split].
  - intros z -> Hz. simpl. rewrite bind_lift_ok.
    replace (Z.to_nat z) with 0 by lia. reflexivity.
  - intros E. rewrite E. reflexivity.
  - intros Hbody Hs1. destruct (keywords.range_count n) as [k|e]; [|exact Hs1].
    rewrite bind_lift_ok. unfold bind.
    pose proof (times_invariant P (evaluate body) Hbody k s1 Hs1) as Hk.
    destruct (keywords.times k (evaluate body) s1) as [[u|e] s2]; exact Hk.
Qed.

Lemma dict_get_put_same (d : list (value * value)) (n : string) (v : value) :
  py.dict_get (py.dict_put d (VStr n) v) (VStr n) = Some v.
Proof.
  induction d as [|[k' v'] d IH]; simpl.
  - now rewrite String.eqb_refl.
  - destruct (py.eqb k' (VStr n)) eqn:E; simpl; rewrite E; [reflexivity | exact IH].
Qed.

Lemma dict_get_put_other (d : list (value * value)) (n : string) (v k : value) :
  py.eqb (VStr n) k = false ->
  py.dict_get (py.dict_put d (VStr n) v) k = py.dict_get d k.
Proof.
  intros Hk. induction d as [|[k' v'] d IH]; cbn [py.dict_put py.dict_get].
  - now rewrite Hk.
  - destruct (py.eqb k' (VStr n)) eqn:E; cbn [py.dict_get].
    + apply eqb_str_right in E. subst k'. rewrite Hk. reflexivity.
    + destruct (py.eqb k' k); [reflexivity | exact IH].
Qed.

(** X9. [global] with a true value expression evaluates it, stores the
    result under the name and returns [None]; reading the name afterwards
    returns the stored value and leaves the state alone; the other names of
    the store, the active environment and the closure registry are as the
    evaluation left them. *)
Theorem global_write_then_read (var : string) (val w : value) (s s1 : state) :
  py.truthy val = true ->
  evaluate val s = (Ok w, s1) ->
  exists s2,
    keywords.globals (VStr var) val s = (Ok VNone, s2)
    /\ keywords.globals (VStr var) VNone s2 = (Ok w, s2)
    /\ (forall k, py.eqb (VStr var) k = false ->
          py.dict_get (GLOBALS s2) k = py.dict_get (GLOBALS s1) k)
    /\ ENV s2 = ENV s1 /\ CLOSURES s2 = CLOSURES s1.
Proof.
  intros Hval Hev.
  exists (with_GLOBALS (py.dict_put (GLOBALS s1) (VStr var) w) s1).
  split; [|split; [|split; [|split]]].
  - unfold keywords.globals. rewrite Hval, (bind_ok _ _ _ _ _ Hev). reflexivity.
  - unfold keywords.globals, py.dict_get_default. simpl.
    now rewrite dict_get_put_same.
  - intros k Hk. simpl. apply dict_get_put_other. exact Hk.
  - reflexivity.
  - reflexivity.
Qed.

End evaluation_order.

(** ** Boolean functions and predicates *)

(** X10. [or] and [and] return one of their operands, and its truth value
    is the disjunction or the conjunction of the operands' truth values;
    [nor] and [nand] are their negations as Booleans, and obey De Morgan's
    laws with [not]; [not] twice is the truth value. *)
Theorem boolean_functions_follow_the_truth_tables (a b : value) :
  py.truthy (keywords.OR a b) = py.truthy a || py.truthy b
  /\ py.truthy (keywords.AND a b) = py.truthy a && py.truthy b
  /\ (keywords.OR a b = a \/ keywords.OR a b = b)
  /\ (keywords.AND a b = a \/ keywords.AND a b = b)
  /\ keywords.NOR a b = keywords.AND (keywords.NOT a) (keywords.NOT b)
  /\ keywords.NAND a b = keywords.OR (keywords.NOT a) (keywords.NOT b)
  /\ keywords.NOT (keywords.NOT a) = VBool (py.truthy a).
Proof.
  unfold keywords.NOR, keywords.NAND, keywords.OR, keywords.AND, keywords.NOT.
  destruct (py.truthy a) eqn:Ea; simpl; rewrite ?Ea; simpl;
    repeat split; auto; destruct (py.truthy b); reflexivity.
Qed.

Section tokens.
Context `{Host}.

(** X11. On the two Boolean tokens [retype] (the parser) and [rebool] (the
    Boolean operations) agree: both give the Python Boolean, true for [#t]
    only; [isbool] accepts the tokens and what they convert to. *)
Theorem boolean_tokens_convert_alike (x : value) :
  parser.is_bool_token x = true ->
  parser.retype x = Ok (keywords.rebool x)
  /\ keywords.rebool x = VBool (py.is_str x "#t")
  /\ keywords.isbool x = true /\ keywords.isbool (keywords.rebool x) = true
  /\ keywords.rebool (keywords.rebool x) = keywords.rebool x.
Proof.
  unfold parser.is_bool_token. intros Hx.
  destruct x as [| | | |t| | | | |]; simpl in Hx; try discriminate Hx.
  apply orb_true_iff in Hx as [E|E]; apply String.eqb_eq in E; subst t;
    repeat split; reflexivity.
Qed.

End tokens.

(** X12. [islist] holds exactly of a list whose one element is a list, and
    [isstring] exactly of a list whose one element is a string and of a
    string of one character; on an empty list or string neither answers:
    both raise [IndexError]. *)
Theorem list_and_string_predicates (x : value) :
  (keywords.islist x = Ok true <-> exists l, x = VList [VList l])
  /\ (keywords.isstring x = Ok true
      <-> (exists t, x = VList [VStr t]) \/ (exists c, x = VStr (String c EmptyString)))
  /\ (py.len x = Ok 0 ->
      keywords.islist x = Err (Raised IndexError None)
      /\ keywords.isstring x = Err (Raised IndexError None)).
Proof.
  split; [|split].
  - split.
    + destruct x as [| | | |t|l| | | |]; simpl; try discriminate.
      * destruct t; simpl; discriminate.
      * destruct l as [|h [|h2 l]]; simpl; try discriminate;
          destruct h; simpl; try discriminate.
        intros _. eexists. reflexivity.
    + intros [l ->]. reflexivity.
  - split.
    + destruct x as [| | | |t|l| | | |]; simpl; try discriminate.
      * destruct t as [|c [|c2 t]]; simpl; try discriminate.
        intros _. right. eexists. reflexivity.
      * destruct l as [|h [|h2 l]]; simpl; try discriminate;
          destruct h; simpl; try discriminate.
        intros _. left. eexists. reflexivity.
    + intros [[t ->] | [c ->]]; reflexivity.
  - destruct x as [| | | |t|l| | | |]; simpl; try discriminate.
    + destruct t; [split; reflexivity | discriminate].
    + destruct l; [split; reflexivity | discriminate].
Qed.

(** ** The patterns of the predicates *)

Lemma matches_class_star (p : ascii -> bool) (l : list ascii) :
  regex.matches (regex.Star (regex.Class p)) l <-> forallb p l = true.
Proof.
  split.
  - intros Hm. remember (regex.Star (regex.Class p)) as r eqn:Er.
    induction Hm as [| | | |r l1 l2 H1 _ H2 IH2|]; try discriminate Er.
    + reflexivity.
    + injection Er as ->. inversion H1 as [p' c Hc| | | | |]; subst. simpl.
      rewrite (IH2 eq_refl). now rewrite Hc.
  - induction l as [|c l IH]; simpl; intros E; [constructor|].
    apply andb_true_iff in E as [Ec El].
    apply (regex.matches_star_cons _ [c] l); [now constructor | exact (IH El)].
Qed.

Lemma matches_class_plus (p : ascii -> bool) (l : list ascii) :
  regex.matches (regex.Plus (regex.Class p)) l <-> l <> [] /\ forallb p l = true.
Proof.
  split.
  - intros Hm. inversion Hm as [| | | | |? ? l1 l2 H1 H2]; subst.
    inversion H1 as [p' c Hc| | | | |]; subst. apply matches_class_star in H2.
    split; [discriminate|]. simpl. now rewrite Hc, H2.
  - intros [Hne E]. destruct l as [|c l]; [contradiction|].
    simpl in E. apply andb_true_iff in E as [Ec El].
    apply (regex.matches_cat _ _ [c] l); [now constructor | now apply matches_class_star].
Qed.

Lemma matches_one_opt (c : ascii) (l : list ascii) :
  regex.matches (regex.Opt (regex.one c)) l <-> l = [] \/ l = [c].
Proof.
  split.
  - intros Hm. inversion Hm as [|?|? ? H1| | |]; subst; [left; reflexivity|].
    inversion H1 as [p' c' Hc| | | | |]; subst. right. f_equal. symmetry.
    now apply Ascii.eqb_eq.
  - intros [->| ->]; [constructor|]. apply regex.matches_opt_some. constructor.
    apply Ascii.eqb_refl.
Qed.

Lemma span_digits_spec (l : list ascii) :
  forall ds rest,
    predicates.span_digits l = (ds, rest) ->
    l = ds ++ rest /\ forallb predicates.is_digit ds = true
    /\ match rest with c :: _ => predicates.is_digit c = false | [] => True end.
Proof.
  induction l as [|c l IH]; intros ds rest; simpl.
  - intros E. injection E as <- <-. repeat split.
  - destruct (predicates.is_digit c) eqn:Ec.
    + destruct (predicates.span_digits l) as [ds' rest'].
      intros E. injection E as <- <-.
      destruct (IH ds' rest' eq_refl) as (-> & Hd & Hr).
      repeat split; [simpl; now rewrite Ec | exact Hr].
    + intros E. injection E as <- <-. repeat split. exact Ec.
Qed.

Lemma span_digits_app (ds rest : list ascii) :
  forallb predicates.is_digit ds = true ->
  match rest with c :: _ => predicates.is_digit c = false | [] => True end ->
  predicates.span_digits (ds ++ rest) = (ds, rest).
Proof.
  intros Hd Hr. induction ds as [|c ds IH]; simpl.
  - destruct rest as [|c rest]; [reflexivity|]. simpl. now rewrite Hr.
  - simpl in Hd. apply andb_true_iff in Hd as [Hc Hd]. now rewrite Hc, (IH Hd).
Qed.

Lemma before_dollar_snoc (l : list ascii) (c : ascii) :
  predicates.before_dollar (l ++ [c]) = if Ascii.eqb c "010"%char then l else l ++ [c].
Proof.
  unfold predicates.before_dollar. rewrite rev_app_distr. simpl.
  destruct (Ascii.eqb c "010"); [apply rev_involutive | reflexivity].
Qed.

Lemma before_dollar_cases (l : list ascii) :
  l = predicates.before_dollar l \/ l = predicates.before_dollar l ++ ["010"%char].
Proof.
  destruct (rev l) as [|c r] eqn:E.
  - left. unfold predicates.before_dollar. now rewrite E.
  - assert (Hl : l = rev r ++ [c]).
    { rewrite <- (rev_involutive l), E. reflexivity. }
    rewrite Hl, before_dollar_snoc.
    destruct (Ascii.eqb c "010") eqn:Ec; [|left; reflexivity].
    apply Ascii.eqb_eq in Ec. subst c. right. reflexivity.
Qed.

(** The part of a number after the sign. *)
Lemma unsigned_number (m : list ascii) :
  (let (ds, rest) := predicates.span_digits m in
   match rest with
   | [] => negb (Nat.eqb (length ds) 0)
   | c :: ds' =>
       Ascii.eqb c "."%char && negb (Nat.eqb (length ds') 0)
       && forallb predicates.is_digit ds'
   end) = true
  <-> regex.matches
        (regex.Cat (regex.Star (regex.Class predicates.is_digit))
           (regex.Cat (regex.Opt (regex.one "."))
              (regex.Plus (regex.Class predicates.is_digit)))) m.
Proof.
  split.
  - destruct (predicates.span_digits m) as [ds rest] eqn:E.
    destruct (span_digits_spec m ds rest E) as (-> & Hd & Hr).
    destruct rest as [|c ds'].
    + intros Hne. rewrite app_nil_r.
      apply (regex.matches_cat _ _ [] ds); [constructor|].
      apply (regex.matches_cat _ _ [] ds); [constructor|].
      apply matches_class_plus. split; [|exact Hd].
      destruct ds; [discriminate Hne | discriminate].
    + intros Hc. apply andb_true_iff in Hc as [Hc Hd'].
      apply andb_true_iff in Hc as [Hc Hne]. apply Ascii.eqb_eq in Hc. subst c.
      constructor; [now apply matches_class_star|].
      apply (regex.matches_cat _ _ ["."%char] ds'); [now apply matches_one_opt; right|].
      apply matches_class_plus. split; [|exact Hd'].
      destruct ds'; [discriminate Hne | discriminate].
  - intros Hm.
    inversion Hm as [| | | | |? ? ds1 m' H1 H2]; subst.
    inversion H2 as [| | | | |? ? dot ds2 H3 H4]; subst.
    apply matches_class_star in H1. apply matches_one_opt in H3.
    apply matches_class_plus in H4 as [Hne Hd2].
    destruct H3 as [->| ->].
    + cbn [app].
      assert (Hs : predicates.span_digits (ds1 ++ ds2) = (ds1 ++ ds2, [])).
      { rewrite <- (app_nil_r (ds1 ++ ds2)) at 1. apply span_digits_app; [|exact I].
        rewrite forallb_app, H1, Hd2. reflexivity. }
      rewrite Hs, length_app. destruct ds2; [contradiction|]. simpl.
      replace (length ds1 + S (length ds2)) with (S (length ds1 + length ds2)) by lia.
      reflexivity.
    + rewrite (span_digits_app ds1 (["."%char] ++ ds2) H1 eq_refl). simpl.
      rewrite Hd2. destruct ds2; [contradiction | reflexivity].
Qed.

Lemma digit_is_no_mark (c : ascii) :
  predicates.is_digit c = true ->
  Ascii.eqb c "-"%char = false /\ Ascii.eqb c "010"%char = false.
Proof.
  intros Hc. split.
  - destruct (Ascii.eqb c "-") eqn:E; [|reflexivity].
    apply Ascii.eqb_eq in E. subst c. discriminate Hc.
  - destruct (Ascii.eqb c "010") eqn:E; [|reflexivity].
    apply Ascii.eqb_eq in E. subst c. discriminate Hc.
Qed.

Lemma unsigned_number_ends (m : list ascii) :
  regex.matches
    (regex.Cat (regex.Star (regex.Class predicates.is_digit))
       (regex.Cat (regex.Opt (regex.one "."))
          (regex.Plus (regex.Class predicates.is_digit)))) m ->
  (exists c m', m = c :: m' /\ Ascii.eqb c "-"%char = false)
  /\ (exists m0 d, m = m0 ++ [d] /\ Ascii.eqb d "010"%char = false).
Proof.
  intros Hm.
  inversion Hm as [| | | | |? ? ds1 m' H1 H2]; subst.
  inversion H2 as [| | | | |? ? dot ds2 H3 H4]; subst.
  apply matches_class_star in H1. apply matches_one_opt in H3.
  apply matches_class_plus in H4 as [Hne Hd2]. split.
  - destruct ds1 as [|c ds1].
    + destruct H3 as [->| ->].
      * destruct ds2 as [|c ds2]; [contradiction|]. simpl in Hd2.
        apply andb_true_iff in Hd2 as [Hc _].
        exists c, ds2. split; [reflexivity | apply (digit_is_no_mark c Hc)].
      * eexists. eexists. split; reflexivity.
    + simpl in H1. apply andb_true_iff in H1 as [Hc _].
      eexists. eexists. split; [reflexivity | apply (digit_is_no_mark c Hc)].
  - destruct (rev ds2) as [|d r] eqn:E.
    + apply (f_equal (@rev ascii)) in E. rewrite rev_involutive in E. contradiction.
    + assert (Hds2 : ds2 = rev r ++ [d]).
      { rewrite <- (rev_involutive ds2), E. reflexivity. }
      exists (ds1 ++ dot ++ rev r), d. split.
      * rewrite Hds2, <- !app_assoc. reflexivity.
      * rewrite Hds2, forallb_app in Hd2. apply andb_true_iff in Hd2 as [_ Hd].
        simpl in Hd. apply andb_true_iff in Hd as [Hd _].
        apply (digit_is_no_mark d Hd).
Qed.

(** X13. [isnumber] accepts a string exactly when the pattern
    [[-]?[0-9]*[.]?[0-9]+] matches all of it, or all of it but a newline that
    ends it: an optional minus sign, then digits, or digits (possibly none), a
    dot and one digit at least. *)
Theorem isnumber_accepts_what_its_pattern_matches `{Host} (s : string) :
  predicates.isnumber (VStr s) = true <-> regex.re_match regex.number s.
Proof.
  change (predicates.isnumber (VStr s)) with (predicates.number_pattern s).
  unfold predicates.number_pattern, regex.re_match, regex.number.
  set (strip := fun l : list ascii =>
                  match l with
                  | c :: l' => if Ascii.eqb c "-"%char then l' else l
                  | [] => l
                  end).
  change (match list_ascii_of_string s with
          | [] => list_ascii_of_string s
          | c :: l' => if Ascii.eqb c "-"%char then l' else list_ascii_of_string s
          end) with (strip (list_ascii_of_string s)).
  assert (Hstrip : exists sign,
             (sign = [] \/ sign = ["-"%char])
             /\ list_ascii_of_string s = sign ++ strip (list_ascii_of_string s)).
  { destruct (list_ascii_of_string s) as [|c l]; [exists []; split; [now left | reflexivity]|].
    simpl. destruct (Ascii.eqb c "-") eqn:Ec.
    - apply Ascii.eqb_eq in Ec. subst c. exists ["-"%char]. split; [now right | reflexivity].
    - exists []. split; [now left | reflexivity]. }
  split.
  - intros Hcore. apply unsigned_number in Hcore.
    destruct Hstrip as (sign & Hsign & Hs).
    exists (sign ++ predicates.before_dollar (strip (list_ascii_of_string s))). split.
    + constructor; [apply matches_one_opt; exact Hsign | exact Hcore].
    + rewrite Hs at 1 3.
      destruct (before_dollar_cases (strip (list_ascii_of_string s))) as [E|E].
      * left. now rewrite <- E.
      * right. rewrite <- app_assoc. now rewrite <- E.
  - intros (l & Hm & Hl).
    inversion Hm as [| | | | |? ? sign m Hsg Hu]; subst.
    apply matches_one_opt in Hsg.
    destruct (unsigned_number_ends m Hu) as [(c & m' & Hc & Hminus) (m0 & d & Hd & Hnl)].
    apply unsigned_number.
    assert (Hstripped : strip (list_ascii_of_string s) = m
                        \/ strip (list_ascii_of_string s) = m ++ ["010"%char]).
    { destruct Hsg as [->| ->]; destruct Hl as [->| ->]; simpl.
      - left. subst m. simpl. now rewrite Hminus.
      - right. rewrite Hc. simpl. now rewrite Hminus.
      - left. reflexivity.
      - right. reflexivity. }
    destruct Hstripped as [->| ->].
    + rewrite Hd at 1. rewrite before_dollar_snoc, Hnl, <- Hd. exact Hu.
    + rewrite before_dollar_snoc. exact Hu.
Qed.

Lemma forallb_rev {A} (p : A -> bool) (l : list A) : forallb p (rev l) = forallb p l.
Proof.
  induction l as [|x l IH]; [reflexivity|].
  simpl. rewrite forallb_app, IH. simpl. rewrite andb_true_r. apply andb_comm.
Qed.

(** X14. [iscxr] accepts a string exactly when the pattern [c[ad]+r]
    matches all of it, or all of it but a newline that ends it. *)
Theorem iscxr_accepts_what_its_pattern_matches `{Host} (s : string) :
  predicates.iscxr (VStr s) = true <-> regex.re_match regex.cxr s.
Proof.
  change (predicates.iscxr (VStr s)) with (predicates.cxr_pattern s).
  unfold predicates.cxr_pattern, regex.re_match, regex.cxr. split.
  - destruct (predicates.before_dollar (list_ascii_of_string s)) as [|c l] eqn:Eb;
      [discriminate|].
    intros E. apply andb_true_iff in E as [Ec E]. apply Ascii.eqb_eq in Ec. subst c.
    destruct (rev l) as [|r m] eqn:Er; [discriminate E|].
    apply andb_true_iff in E as [E Had]. apply andb_true_iff in E as [Hr Hne].
    apply Ascii.eqb_eq in Hr. subst r.
    assert (Hl : l = rev m ++ ["r"%char]).
    { rewrite <- (rev_involutive l), Er. reflexivity. }
    exists ("c"%char :: l). split.
    + rewrite Hl. apply (regex.matches_cat _ _ ["c"%char]); [constructor; reflexivity|].
      constructor; [|constructor; reflexivity].
      apply matches_class_plus. split.
      * destruct m; [discriminate Hne|]. simpl. destruct (rev m); discriminate.
      * rewrite forallb_rev. exact Had.
    + rewrite <- Eb. apply before_dollar_cases.
  - intros (l & Hm & Hl).
    inversion Hm as [| | | | |? ? l1 l2 H1 H2]; subst.
    inversion H1 as [p c Hc| | | | |]; subst. apply Ascii.eqb_eq in Hc. subst c.
    inversion H2 as [| | | | |? ? ads l3 H3 H4]; subst.
    inversion H4 as [p r Hr| | | | |]; subst. apply Ascii.eqb_eq in Hr. subst r.
    apply matches_class_plus in H3 as [Hne Had].
    assert (Hb : predicates.before_dollar (list_ascii_of_string s)
                 = "c"%char :: ads ++ ["r"%char]).
    { destruct Hl as [->| ->].
      - change (["c"%char] ++ ads ++ ["r"%char]) with (("c"%char :: ads) ++ ["r"%char]).
        rewrite before_dollar_snoc. reflexivity.
      - rewrite before_dollar_snoc. reflexivity. }
    rewrite Hb, rev_app_distr. simpl. rewrite length_rev, forallb_rev, Had.
    destruct ads; [contradiction | reflexivity].
Qed.

(** ** Tokens and nested lists *)

Section sexp_induction.
Variable P : syntax.sexp -> Prop.
Hypothesis Hsym : forall t, P (syntax.Sym t).
Hypothesis Hseq : forall l, Forall P l -> P (syntax.Seq l).

Lemma sexp_nested_ind : forall e, P e.
Proof.
  fix IH 1. intros [t|l]; [apply Hsym|].
  apply Hseq. induction l as [|x l IHl]; constructor; [apply IH | exact IHl].
Qed.

End sexp_induction.

Lemma flatten_cons (e : syntax.sexp) (es : list syntax.sexp) :
  syntax.flatten (e :: es) = syntax.tokens e ++ syntax.flatten es.
Proof. reflexivity. Qed.

Lemma flatten_app (a b : list syntax.sexp) :
  syntax.flatten (a ++ b) = syntax.flatten a ++ syntax.flatten b.
Proof. apply flat_map_app. Qed.

Lemma not_paren_eqb (t : string) :
  syntax.not_paren t = true -> String.eqb t "(" = false /\ String.eqb t ")" = false.
Proof.
  unfold syntax.not_paren, syntax.is_paren. intros E.
  apply negb_true_iff, orb_false_iff in E. exact E.
Qed.

(** The parentheses of an expression leave the count of open ones as it
    was. *)
Lemma balance_loop_tokens (expr : list string) (e : syntax.sexp) :
  syntax.atoms_are syntax.not_paren e = true ->
  forall rest k,
    parser.balance_loop expr (syntax.tokens e ++ rest) k = parser.balance_loop expr rest k.
Proof.
  induction e as [t|l IH] using sexp_nested_ind; intros Ha rest k.
  - simpl in *. destruct (not_paren_eqb t Ha) as [-> ->]. reflexivity.
  - simpl in Ha. simpl.
    rewrite <- app_assoc. simpl.
    assert (Hl : forall rest k,
      parser.balance_loop expr (flat_map syntax.tokens l ++ rest) k
      = parser.balance_loop expr rest k).
    { clear rest k. induction IH as [|x l Hx _ IHl]; intros rest k; [reflexivity|].
      simpl in Ha. apply andb_true_iff in Ha as [Hax Hal].
      simpl. rewrite <- app_assoc, (Hx Hax). apply IHl. exact Hal. }
    rewrite Hl. reflexivity.
Qed.

Lemma balance_loop_flatten (expr : list string) (es : list syntax.sexp) :
  forallb (syntax.atoms_are syntax.not_paren) es = true ->
  forall rest k,
    parser.balance_loop expr (syntax.flatten es ++ rest) k = parser.balance_loop expr rest k.
Proof.
  induction es as [|e es IH]; intros Ha rest k; [reflexivity|].
  simpl in Ha. apply andb_true_iff in Ha as [He Hes].
  rewrite flatten_cons, <- app_assoc, (balance_loop_tokens expr e He). apply IH. exact Hes.
Qed.

Lemma balance_loop_parses (expr : list string) (rest : list string) :
  forall (open : list (list syntax.sexp)) (current : list syntax.sexp),
    forallb (syntax.atoms_are syntax.not_paren) current = true ->
    Forall (fun es => forallb (syntax.atoms_are syntax.not_paren) es = true) open ->
    parser.balance_loop expr rest (length open) = Ok 0 ->
    exists es,
      forallb (syntax.atoms_are syntax.not_paren) es = true
      /\ syntax.read_so_far open current ++ rest = syntax.flatten es.
Proof.
  induction rest as [|t rest IH]; intros open current Hc Ho; simpl.
  - intros E. injection E as E. destruct open; [|discriminate E].
    exists current. split; [exact Hc | apply app_nil_r].
  - destruct (String.eqb t "(") eqn:Eo.
    + apply String.eqb_eq in Eo. subst t. intros E.
      destruct (IH (current :: open) [] eq_refl (Forall_cons_2 _ _ _ Hc Ho) E) as (es & Hes & Heq).
      exists es. split; [exact Hes|]. rewrite <- Heq. simpl.
      rewrite <- app_assoc. reflexivity.
    + destruct (String.eqb t ")") eqn:Ec.
      * apply String.eqb_eq in Ec. subst t.
        destruct open as [|outer open]; simpl; [discriminate|]. intros E.
        inversion Ho as [|? ? Houter Ho']; subst.
        destruct (IH open (outer ++ [syntax.Seq current])) as (es & Hes & Heq);
          [ | exact Ho' | exact E | ].
        { rewrite forallb_app, Houter. simpl. rewrite Hc. reflexivity. }
        exists es. split; [exact Hes|]. rewrite <- Heq.
        assert (Hread : forall o, syntax.read_so_far o (outer ++ [syntax.Seq current])
                        = syntax.read_so_far o outer ++ "(" :: syntax.flatten current ++ [")"]).
        { intros o. destruct o; simpl; rewrite flatten_app; simpl;
            rewrite ?app_nil_r, <- ?app_assoc; reflexivity. }
        rewrite Hread, <- !app_assoc. simpl. rewrite <- app_assoc. reflexivity.
      * intros E.
        destruct (IH open (current ++ [syntax.Sym t])) as (es & Hes & Heq);
          [ | exact Ho | exact E | ].
        { rewrite forallb_app, Hc. simpl. unfold syntax.not_paren, syntax.is_paren.
          rewrite Eo, Ec. reflexivity. }
        exists es. split; [exact Hes|]. rewrite <- Heq.
        assert (Hread : forall o, syntax.read_so_far o (current ++ [syntax.Sym t])
                        = syntax.read_so_far o current ++ [t]).
        { intros o. destruct o; simpl; rewrite flatten_app; simpl;
            rewrite ?app_nil_r, <- ?app_assoc; reflexivity. }
        rewrite Hread, <- app_assoc. reflexivity.
Qed.

Lemma balance_loop_failure (expr rest : list string) :
  forall k e, parser.balance_loop expr rest k = Err e -> e = parser.unmatched_closing expr.
Proof.
  induction rest as [|t rest IH]; intros k e; simpl; [discriminate|].
  destruct (String.eqb t "("); [apply IH|].
  destruct (String.eqb t ")"); [|apply IH].
  destruct k; [intros E; now inversion E | apply IH].
Qed.

(** X15. [syntax_check] accepts a token list exactly when it is the tokens
    of a sequence of expressions (each a token that is no parenthesis, or a
    parenthesised sequence), and then returns it unchanged; what it rejects
    it rejects with one of the two [SyntaxError]s of [isperfectlybalanced]. *)
Theorem syntax_check_accepts_the_tokens_of_expressions (expr : list string) :
  (parser.syntax_check expr = Ok expr
   <-> exists es,
         forallb (syntax.atoms_are syntax.not_paren) es = true
         /\ expr = syntax.flatten es)
  /\ (forall r, parser.syntax_check expr = Ok r -> r = expr)
  /\ (forall e, parser.syntax_check expr = Err e ->
        e = parser.unmatched_closing expr \/ e = parser.unmatched_opening expr).
Proof.
  unfold parser.syntax_check, parser.isperfectlybalanced. split; [split|split].
  - destruct (parser.balance_loop expr expr 0) as [k|e] eqn:E; simpl; [|discriminate].
    destruct k; simpl; [|discriminate]. intros _.
    exact (balance_loop_parses expr expr [] [] eq_refl (Forall_nil_2 _) E).
  - intros (es & Hes & ->).
    rewrite <- (app_nil_r (syntax.flatten es)) at 2.
    rewrite (balance_loop_flatten _ es Hes). reflexivity.
  - intros r. destruct (parser.balance_loop expr expr 0) as [k|e]; simpl; [|discriminate].
    destruct k; simpl; [|discriminate]. intros E. now inversion E.
  - intros e. destruct (parser.balance_loop expr expr 0) as [k|e'] eqn:E; simpl.
    + destruct k; simpl; [discriminate|]. intros E'. right. now inversion E'.
    + intros E'. left. inversion E'; subst e'. exact (balance_loop_failure _ _ _ _ E).
Qed.

(** Within an expression the balance stays above the one it started from, so
    that the loop of [get_opp_par] runs through it. *)
Lemma opp_par_loop_tokens (e : syntax.sexp) :
  syntax.atoms_are syntax.not_paren e = true ->
  forall rest index balance,
    (0 < balance)%Z ->
    parser.opp_par_loop (syntax.tokens e ++ rest) index balance
    = parser.opp_par_loop rest (index + length (syntax.tokens e)) balance.
Proof.
  induction e as [t|l IH] using sexp_nested_ind; intros Ha rest index balance Hb.
  - simpl in *. destruct (not_paren_eqb t Ha) as [-> ->].
    replace (balance =? 0)%Z with false by (symmetry; apply Z.eqb_neq; lia).
    f_equal. lia.
  - simpl in Ha. simpl.
    replace (balance + 1 =? 0)%Z with false by (symmetry; apply Z.eqb_neq; lia).
    rewrite <- app_assoc.
    assert (Hl : forall rest index balance,
      (0 < balance)%Z ->
      parser.opp_par_loop (flat_map syntax.tokens l ++ rest) index balance
      = parser.opp_par_loop rest (index + length (flat_map syntax.tokens l)) balance).
    { clear rest index balance Hb.
      induction IH as [|x l Hx _ IHl]; intros rest index balance Hb.
      - simpl. f_equal. lia.
      - simpl in Ha. apply andb_true_iff in Ha as [Hax Hal].
        simpl. rewrite <- app_assoc, (Hx Hax) by exact Hb.
        rewrite (IHl Hal) by exact Hb. rewrite length_app. f_equal. lia. }
    rewrite Hl by lia. simpl.
    replace (balance + 1 - 1 =? 0)%Z with false by (symmetry; apply Z.eqb_neq; lia).
    replace (balance + 1 - 1)%Z with balance by lia.
    rewrite !length_app. simpl. f_equal. lia.
Qed.

Lemma opp_par_loop_flatten (es : list syntax.sexp) :
  forallb (syntax.atoms_are syntax.not_paren) es = true ->
  forall rest index balance,
    (0 < balance)%Z ->
    parser.opp_par_loop (syntax.flatten es ++ rest) index balance
    = parser.opp_par_loop rest (index + length (syntax.flatten es)) balance.
Proof.
  induction es as [|e es IH]; intros Ha rest index balance Hb.
  - simpl. f_equal. lia.
  - simpl in Ha. apply andb_true_iff in Ha as [He Hes].
    rewrite flatten_cons, <- app_assoc, (opp_par_loop_tokens e He) by exact Hb.
    rewrite (IH Hes) by exact Hb. rewrite length_app. f_equal. lia.
Qed.

Lemma get_opp_par_seq (es : list syntax.sexp) (rest : list string) :
  forallb (syntax.atoms_are syntax.not_paren) es = true ->
  parser.get_opp_par (syntax.tokens (syntax.Seq es) ++ rest)
  = Some (S (length (syntax.flatten es))).
Proof.
  intros Hes. unfold parser.get_opp_par. simpl. rewrite <- app_assoc.
  rewrite (opp_par_loop_flatten es Hes) by lia. reflexivity.
Qed.

Lemma lst_to_Python_steps_flatten (n : nat) :
  forall es,
    forallb (syntax.atoms_are syntax.not_paren) es = true ->
    length (syntax.flatten es) < n ->
    parser.lst_to_Python_steps n (syntax.flatten es) = Ok (map syntax.nest es).
Proof.
  induction n as [|n IH]; intros es Ha Hn; [lia|].
  destruct es as [|[t|l] es]; [reflexivity| |].
  - simpl in Ha. apply andb_true_iff in Ha as [Ht Hes].
    rewrite flatten_cons. cbn [syntax.tokens app parser.lst_to_Python_steps].
    destruct (not_paren_eqb t Ht) as [-> _].
    rewrite flatten_cons in Hn. simpl in Hn.
    rewrite (IH es Hes) by lia. reflexivity.
  - cbn [forallb] in Ha. apply andb_true_iff in Ha as [Hl Hes].
    cbn [syntax.atoms_are] in Hl.
    pose proof (get_opp_par_seq l (syntax.flatten es) Hl) as Hopp.
    rewrite flatten_cons in Hn |- *.
    cbn [syntax.tokens] in Hn, Hopp |- *. rewrite length_app in Hn. simpl in Hn.
    rewrite length_app in Hn. simpl in Hn.
    change (("(" :: flat_map syntax.tokens l ++ [")"]) ++ syntax.flatten es)
      with ("(" :: (flat_map syntax.tokens l ++ [")"]) ++ syntax.flatten es) in Hopp |- *.
    cbn [parser.lst_to_Python_steps]. rewrite String.eqb_refl, Hopp.
    replace (S (length (syntax.flatten l)) - 1) with (length (syntax.flatten l)) by lia.
    rewrite <- app_assoc, take_app_length.
    change (flat_map syntax.tokens l) with (syntax.flatten l) in Hn |- *.
    rewrite (IH l Hl) by lia.
    cbn [drop obind]. rewrite app_assoc.
    rewrite drop_app_length' by (rewrite length_app; simpl; lia).
    rewrite (IH es Hes) by lia.
    reflexivity.
Qed.

(** X16. On a token list that starts with a parenthesised sequence
    [get_opp_par] returns the index of the parenthesis that closes it; on one
    that starts with another token it returns 0; on the empty list, and on an
    opening parenthesis that nothing closes, it returns [None], with which
    [lst_to_Python] fails: it raises [TypeError]. *)
Theorem get_opp_par_finds_the_closing_parenthesis
  (es : list syntax.sexp) (t : string) (rest : list string) :
  forallb (syntax.atoms_are syntax.not_paren) es = true ->
  syntax.not_paren t = true ->
  parser.get_opp_par (syntax.tokens (syntax.Seq es) ++ rest)
  = Some (S (length (syntax.flatten es)))
  /\ (syntax.tokens (syntax.Seq es) ++ rest) !! S (length (syntax.flatten es)) = Some ")"
  /\ parser.get_opp_par (t :: rest) = Some 0
  /\ parser.get_opp_par [] = None
  /\ parser.get_opp_par ("(" :: syntax.flatten es) = None
  /\ parser.lst_to_Python ("(" :: syntax.flatten es) = Err (Raised TypeError None).
Proof.
  intros Hes Ht.
  assert (Hnone : parser.get_opp_par ("(" :: syntax.flatten es) = None).
  { unfold parser.get_opp_par. simpl. rewrite <- (app_nil_r (syntax.flatten es)).
    rewrite (opp_par_loop_flatten es Hes) by lia. reflexivity. }
  split; [|split; [|split; [|split; [|split]]]].
  - apply get_opp_par_seq. exact Hes.
  - simpl. rewrite <- app_assoc.
    rewrite lookup_app_r by (unfold syntax.flatten; lia).
    replace (length (syntax.flatten es) - length (flat_map syntax.tokens es)) with 0
      by (unfold syntax.flatten; lia).
    reflexivity.
  - unfold parser.get_opp_par. simpl. destruct (not_paren_eqb t Ht) as [-> ->]. reflexivity.
  - reflexivity.
  - exact Hnone.
  - unfold parser.lst_to_Python. cbn [parser.lst_to_Python_steps]. rewrite String.eqb_refl, Hnone.
    rewrite (lst_to_Python_steps_flatten _ es Hes) by (simpl; lia). reflexivity.
Qed.

(** ** The tokenizer *)

Lemma string_app_assoc (a b c : string) : (a +:+ b) +:+ c = a +:+ b +:+ c.
Proof.
  induction a as [|x a IH]; [reflexivity|].
  change (String x (a +:+ b) +:+ c = String x (a +:+ b +:+ c)).
  change (String x ((a +:+ b) +:+ c) = String x (a +:+ b +:+ c)). now rewrite IH.
Qed.

Lemma replace_char_app (c : ascii) (new a b : string) :
  parser.replace_char c new (a +:+ b)
  = parser.replace_char c new a +:+ parser.replace_char c new b.
Proof.
  induction a as [|x a IH]; [reflexivity|].
  change (String x a +:+ b) with (String x (a +:+ b)).
  cbn [parser.replace_char]. rewrite IH.
  destruct (Ascii.eqb x c); [|reflexivity].
  symmetry. apply string_app_assoc.
Qed.

Lemma padded (s : string) :
  list_ascii_of_string
    (parser.replace_char "'" " ' "
       (parser.replace_char ")" " ) " (parser.replace_char "(" " ( " s)))
  = flat_map syntax.pad_char (list_ascii_of_string s).
Proof.
  induction s as [|x s IH]; [reflexivity|].
  cbn [list_ascii_of_string flat_map]. rewrite <- IH.
  change (String x s) with (String x EmptyString +:+ s).
  rewrite !replace_char_app, list_ascii_app. f_equal.
  unfold syntax.pad_char. cbn [parser.replace_char].
  destruct (Ascii.eqb x "(") eqn:E1.
  - apply Ascii.eqb_eq in E1. subst x. reflexivity.
  - cbn [orb parser.replace_char]. destruct (Ascii.eqb x ")") eqn:E2.
    + apply Ascii.eqb_eq in E2. subst x. reflexivity.
    + cbn [orb parser.replace_char]. destruct (Ascii.eqb x "'") eqn:E3; [|reflexivity].
      apply Ascii.eqb_eq in E3. subst x. reflexivity.
Qed.

Lemma not_delimiter (c : ascii) :
  syntax.is_delimiter c = false ->
  parser.is_space c = false /\ syntax.pad_char c = [c].
Proof.
  unfold syntax.is_delimiter, syntax.pad_char. intros E.
  apply orb_false_iff in E as [E E3]. apply orb_false_iff in E as [E E2].
  apply orb_false_iff in E as [E0 E1]. rewrite E1, E2, E3. split; [exact E0 | reflexivity].
Qed.

Lemma delimiter_cases (c : ascii) :
  syntax.is_delimiter c = true ->
  parser.is_space c = true \/ c = "("%char \/ c = ")"%char \/ c = "'"%char.
Proof.
  unfold syntax.is_delimiter. intros E.
  apply orb_true_iff in E as [E|E]; [|right; right; right; now apply Ascii.eqb_eq].
  apply orb_true_iff in E as [E|E]; [|right; right; left; now apply Ascii.eqb_eq].
  apply orb_true_iff in E as [E|E]; [left; exact E | right; left; now apply Ascii.eqb_eq].
Qed.

Lemma space_pad (c : ascii) : parser.is_space c = true -> syntax.pad_char c = [c].
Proof.
  unfold syntax.pad_char. intros E.
  destruct (Ascii.eqb c "(") eqn:E1; [apply Ascii.eqb_eq in E1; subst; discriminate E|].
  destruct (Ascii.eqb c ")") eqn:E2; [apply Ascii.eqb_eq in E2; subst; discriminate E|].
  destruct (Ascii.eqb c "'") eqn:E3; [apply Ascii.eqb_eq in E3; subst; discriminate E|].
  reflexivity.
Qed.

Lemma chars_string_of (l : list ascii) :
  list_ascii_of_string (string_of_list_ascii l) = l.
Proof. apply list_ascii_of_string_of_list_ascii. Qed.

Lemma word_of_chars (w : list ascii) :
  w <> [] ->
  forallb (fun c => negb (syntax.is_delimiter c)) w = true ->
  syntax.word (string_of_list_ascii (rev w)) = true.
Proof.
  intros Hne Hw. unfold syntax.word. rewrite chars_string_of.
  apply andb_true_iff. split.
  - rewrite eqb_empty_chars, chars_string_of.
    destruct (rev w) eqn:E; [|reflexivity].
    apply (f_equal (@rev ascii)) in E. rewrite rev_involutive in E. contradiction.
  - rewrite forallb_forall in Hw |- *. intros c Hc. apply Hw. apply in_rev. exact Hc.
Qed.

Lemma split_loop_tokens (l : list ascii) :
  forall word,
    forallb (fun c => negb (syntax.is_delimiter c)) word = true ->
    Forall (fun t => syntax.token t = true)
      (parser.split_loop word (flat_map syntax.pad_char l)).
Proof.
  assert (Hflush : forall word,
    forallb (fun c => negb (syntax.is_delimiter c)) word = true ->
    Forall (fun t => syntax.token t = true) (parser.flush word)).
  { intros [|c w] Hw; [constructor|]. constructor; [|constructor].
    unfold syntax.token. rewrite word_of_chars; [reflexivity | discriminate | exact Hw]. }
  induction l as [|c l IH]; intros word Hw; [exact (Hflush word Hw)|].
  cbn [flat_map].
  destruct (syntax.is_delimiter c) eqn:Ec.
  - apply delimiter_cases in Ec as [Es|Ep].
    + rewrite (space_pad c Es). simpl. rewrite Es.
      apply Forall_app. split; [exact (Hflush word Hw) | apply IH; reflexivity].
    + assert (Hpad : parser.split_loop word (syntax.pad_char c ++ flat_map syntax.pad_char l)
                     = parser.flush word ++ [String c EmptyString]
                       ++ parser.split_loop [] (flat_map syntax.pad_char l)).
      { destruct Ep as [->|[->| ->]]; reflexivity. }
      rewrite Hpad. apply Forall_app. split; [exact (Hflush word Hw)|].
      apply Forall_app. split; [|apply IH; reflexivity].
      constructor; [|constructor].
      destruct Ep as [->|[->| ->]]; reflexivity.
  - destruct (not_delimiter c Ec) as [Es ->]. simpl. rewrite Es.
    apply IH. simpl. rewrite Ec. exact Hw.
Qed.

(** X17. Every token of [OPAL_to_list] is a word (one character at least,
    none of them whitespace, a parenthesis or a quote mark) or is one
    parenthesis or one quote mark: the tokenizer returns no empty token and
    no token that holds a parenthesis beside other characters. *)
Theorem tokenizer_returns_words_and_marks (s : string) :
  Forall (fun t => syntax.token t = true) (parser.OPAL_to_list s).
Proof.
  unfold parser.OPAL_to_list, parser.split. rewrite padded.
  apply split_loop_tokens. reflexivity.
Qed.

(** ** Printing and parsing *)

Lemma word_chars (t : string) :
  syntax.word t = true ->
  list_ascii_of_string t <> []
  /\ forallb (fun c => negb (syntax.is_delimiter c)) (list_ascii_of_string t) = true.
Proof.
  unfold syntax.word. intros E. apply andb_true_iff in E as [Hne Hw].
  split; [|exact Hw]. rewrite eqb_empty_chars in Hne.
  destruct (list_ascii_of_string t); [discriminate Hne | discriminate].
Qed.

Lemma pad_word (w : list ascii) :
  forallb (fun c => negb (syntax.is_delimiter c)) w = true ->
  flat_map syntax.pad_char w = w.
Proof.
  induction w as [|c w IH]; [reflexivity|]. simpl. intros E.
  apply andb_true_iff in E as [Ec Hw]. apply negb_true_iff in Ec.
  destruct (not_delimiter c Ec) as [_ ->]. simpl. now rewrite IH.
Qed.

Lemma split_loop_word (w : list ascii) :
  forallb (fun c => negb (syntax.is_delimiter c)) w = true ->
  forall acc rest, parser.split_loop acc (w ++ rest) = parser.split_loop (rev w ++ acc) rest.
Proof.
  induction w as [|c w IH]; intros E acc rest; [reflexivity|].
  simpl in E. apply andb_true_iff in E as [Ec Hw]. apply negb_true_iff in Ec.
  destruct (not_delimiter c Ec) as [Es _]. simpl. rewrite Es, (IH Hw).
  now rewrite <- app_assoc.
Qed.

(** The text of a word, followed by the end of the line or by a space, is
    one token. *)
Lemma split_loop_one_word (t : string) (rest : list ascii) :
  syntax.word t = true ->
  rest = [] \/ (exists r, rest = " "%char :: r) ->
  parser.split_loop [] (list_ascii_of_string t ++ rest) = t :: parser.split_loop [] rest.
Proof.
  intros Ht Hrest. destruct (word_chars t Ht) as [Hne Hw].
  rewrite (split_loop_word _ Hw), app_nil_r.
  assert (Hflush : parser.flush (rev (list_ascii_of_string t)) = [t]).
  { unfold parser.flush. destruct (rev (list_ascii_of_string t)) eqn:E.
    - apply (f_equal (@rev ascii)) in E. rewrite rev_involutive in E. contradiction.
    - rewrite <- E, rev_involutive, string_of_list_ascii_of_string. reflexivity. }
  destruct Hrest as [->|[r ->]]; simpl; rewrite Hflush; reflexivity.
Qed.

Lemma word_not_paren (t : string) : syntax.word t = true -> syntax.not_paren t = true.
Proof.
  intros Ht. destruct (word_chars t Ht) as [_ Hw].
  unfold syntax.not_paren, syntax.is_paren.
  destruct (String.eqb t "(") eqn:E1; [apply String.eqb_eq in E1; subst; discriminate Hw|].
  destruct (String.eqb t ")") eqn:E2; [apply String.eqb_eq in E2; subst; discriminate Hw|].
  reflexivity.
Qed.

Lemma word_not_quote_mark (t : string) : syntax.word t = true -> String.eqb t "'" = false.
Proof.
  intros Ht. destruct (word_chars t Ht) as [_ Hw].
  destruct (String.eqb t "'") eqn:E1; [apply String.eqb_eq in E1; subst; discriminate Hw|].
  reflexivity.
Qed.

Lemma text_seq_chars (l : list syntax.sexp) :
  flat_map syntax.pad_char (list_ascii_of_string (syntax.text (syntax.Seq l)))
  = [" "; "("; " "]%char
    ++ flat_map syntax.pad_char (list_ascii_of_string (py.join " " (map syntax.text l)))
    ++ [" "; ")"; " "]%char.
Proof.
  cbn [syntax.text]. rewrite !list_ascii_app, !flat_map_app. reflexivity.
Qed.

Lemma join_cons (x : string) (l : list string) :
  l <> [] -> py.join " " (x :: l) = x +:+ " " +:+ py.join " " l.
Proof. destruct l; [contradiction | reflexivity]. Qed.

(** The padded text of an expression, followed by the end of the line or by
    a space, splits into the tokens of the expression. *)
Lemma split_loop_text (e : syntax.sexp) :
  syntax.atoms_are syntax.word e = true ->
  forall rest,
    rest = [] \/ (exists r, rest = " "%char :: r) ->
    parser.split_loop [] (flat_map syntax.pad_char (list_ascii_of_string (syntax.text e)) ++ rest)
    = syntax.tokens e ++ parser.split_loop [] rest.
Proof.
  induction e as [t|l IH] using sexp_nested_ind; intros Ha rest Hrest.
  - simpl in Ha. cbn [syntax.text syntax.tokens].
    destruct (word_chars t Ha) as [_ Hw]. rewrite (pad_word _ Hw).
    apply split_loop_one_word; assumption.
  - cbn [syntax.atoms_are] in Ha. rewrite text_seq_chars.
    assert (Hl : forall rest',
      parser.split_loop []
        (flat_map syntax.pad_char (list_ascii_of_string (py.join " " (map syntax.text l)))
         ++ " "%char :: rest')
      = flat_map syntax.tokens l ++ parser.split_loop [] rest').
    { clear rest Hrest. induction IH as [|x l Hx Hl IHl]; intros rest'; [reflexivity|].
      cbn [forallb] in Ha. apply andb_true_iff in Ha as [Hax Hal].
      destruct l as [|y l].
      - cbn [map py.join flat_map]. rewrite app_nil_r.
        rewrite (Hx Hax) by (right; eexists; reflexivity). reflexivity.
      - remember (y :: l) as l' eqn:El'.
        change (map syntax.text (x :: l')) with (syntax.text x :: map syntax.text l').
        rewrite join_cons by (subst l'; discriminate).
        rewrite !list_ascii_app, !flat_map_app, <- !app_assoc.
        rewrite (Hx Hax) by (right; eexists; reflexivity).
        change (flat_map syntax.tokens (x :: l'))
          with (syntax.tokens x ++ flat_map syntax.tokens l').
        rewrite <- app_assoc. f_equal.
        rewrite <- (IHl Hal rest'). reflexivity. }
    cbn [app]. change (parser.split_loop [] (" "%char :: "("%char :: " "%char :: ?x))
      with ("(" :: parser.split_loop [] x).
    cbn [syntax.tokens app]. f_equal.
    rewrite <- !app_assoc. cbn [app]. rewrite Hl. reflexivity.
Qed.

Lemma OPAL_to_list_line (es : list syntax.sexp) :
  forallb (syntax.atoms_are syntax.word) es = true ->
  parser.OPAL_to_list (py.join " " (map syntax.text es)) = syntax.flatten es.
Proof.
  unfold parser.OPAL_to_list, parser.split. rewrite padded.
  induction es as [|e es IH]; intros Ha; [reflexivity|].
  cbn [forallb] in Ha. apply andb_true_iff in Ha as [He Hes].
  destruct es as [|e' es].
  - cbn [map py.join]. rewrite <- (app_nil_r (flat_map _ _)).
    rewrite (split_loop_text e He) by (left; reflexivity).
    unfold syntax.flatten. simpl. reflexivity.
  - remember (e' :: es) as l eqn:El.
    change (map syntax.text (e :: l)) with (syntax.text e :: map syntax.text l).
    rewrite join_cons by (subst l; discriminate).
    rewrite !list_ascii_app, !flat_map_app.
    rewrite (split_loop_text e He) by (right; eexists; reflexivity).
    rewrite flatten_cons. f_equal. exact (IH Hes).
Qed.

Lemma atoms_are_impl (P Q : string -> bool) (e : syntax.sexp) :
  (forall t, P t = true -> Q t = true) ->
  syntax.atoms_are P e = true -> syntax.atoms_are Q e = true.
Proof.
  intros HPQ. induction e as [t|l IH] using sexp_nested_ind; simpl; [apply HPQ|].
  induction IH as [|x l Hx _ IHl]; simpl; [reflexivity|].
  intros E. apply andb_true_iff in E as [Ex El]. now rewrite (Hx Ex), (IHl El).
Qed.

Lemma plain_words (e : syntax.sexp) :
  syntax.plain e = true -> syntax.atoms_are syntax.word e = true.
Proof.
  induction e as [t|l IH] using sexp_nested_ind; simpl.
  - unfold syntax.symbol. intros E. now apply andb_true_iff in E as [E _].
  - intros E. apply andb_true_iff in E as [_ E].
    induction IH as [|x l Hx _ IHl]; simpl; [reflexivity|].
    simpl in E. apply andb_true_iff in E as [Ex El]. now rewrite (Hx Ex), (IHl El).
Qed.

Lemma forallb_impl {A} (P Q : A -> bool) (l : list A) :
  (forall x, P x = true -> Q x = true) -> forallb P l = true -> forallb Q l = true.
Proof.
  intros HPQ. rewrite !forallb_forall. intros Hl x Hx. apply HPQ, Hl, Hx.
Qed.

Section round_trip.
Context `{Host}.

Lemma denote_not_quote (t : string) :
  String.eqb t "quote" = false -> py.is_str (syntax.denote (syntax.Sym t)) "quote" = false.
Proof.
  intros E. simpl. destruct (String.eqb t "#t"); [reflexivity|].
  destruct (String.eqb t "#f"); [reflexivity|]. exact E.
Qed.

Lemma isquote_denote (l : list syntax.sexp) :
  syntax.quote_form l = false ->
  predicates.isquote (VList (map syntax.denote l)) = false.
Proof.
  destruct l as [|h [|x [|y l]]]; try reflexivity.
  destruct h as [t|l']; [|reflexivity]. cbn [syntax.quote_form map predicates.isquote].
  apply denote_not_quote.
Qed.

Lemma convert_symbol (t : string) :
  parser.convert (syntax.denote (syntax.Sym t)) = Some t.
Proof.
  simpl. destruct (String.eqb t "#t") eqn:E1; [apply String.eqb_eq in E1; now subst|].
  destruct (String.eqb t "#f") eqn:E2; [apply String.eqb_eq in E2; now subst|].
  reflexivity.
Qed.

Lemma convert_plain (e : syntax.sexp) :
  syntax.plain e = true -> parser.convert (syntax.denote e) = Some (syntax.text e).
Proof.
  induction e as [t|l IH] using sexp_nested_ind; intros Hp.
  - apply convert_symbol.
  - cbn [syntax.plain] in Hp. apply andb_true_iff in Hp as [Hq Hl].
    apply negb_true_iff in Hq.
    cbn [syntax.denote syntax.text parser.convert].
    rewrite (isquote_denote l Hq).
    match goal with
    | |- context [py.join " " (?items (map syntax.denote l))] =>
        assert (Hitems : items (map syntax.denote l) = map syntax.text l)
    end.
    { clear Hq. induction IH as [|x l Hx _ IHl]; [reflexivity|].
      cbn [forallb] in Hl. apply andb_true_iff in Hl as [Hpx Hpl].
      cbn [map]. rewrite <- (IHl Hpl).
      pose proof (Hx Hpx) as Ex.
      destruct (syntax.denote x) eqn:Ed; try (rewrite Ex; reflexivity).
      discriminate Ex. }
    rewrite Hitems. reflexivity.
Qed.

Lemma retype_symbol (t : string) :
  syntax.symbol t = true -> parser.retype (VStr t) = Ok (syntax.denote (syntax.Sym t)).
Proof.
  unfold syntax.symbol. intros E. apply andb_true_iff in E as [_ En].
  apply negb_true_iff in En.
  unfold parser.retype, predicates.isnumber. cbn [py.str]. rewrite En.
  unfold parser.is_bool_token. cbn [py.is_str syntax.denote].
  destruct (String.eqb t "#t") eqn:E1; [reflexivity|].
  destruct (String.eqb t "#f") eqn:E2; reflexivity.
Qed.

Lemma preprocess_plain (es : list syntax.sexp) :
  forallb syntax.plain es = true ->
  parser.preprocess (VList (map syntax.nest es)) = Ok (VList (map syntax.denote es)).
Proof.
  intros Hes.
  assert (Hseq : syntax.plain (syntax.Seq es) = true \/ forallb syntax.plain es = true)
    by (right; exact Hes).
  clear Hes. revert Hseq.
  change (match syntax.Seq es with
          | syntax.Seq l =>
              syntax.plain (syntax.Seq l) = true \/ forallb syntax.plain l = true ->
              parser.preprocess (VList (map syntax.nest l)) = Ok (VList (map syntax.denote l))
          | syntax.Sym _ => True
          end).
  generalize (syntax.Seq es). clear es.
  intros e. induction e as [t|l IH] using sexp_nested_ind; [exact I|].
  intros Hp.
  assert (Hl : forallb syntax.plain l = true).
  { destruct Hp as [Hp|Hp]; [|exact Hp].
    cbn [syntax.plain] in Hp. now apply andb_true_iff in Hp as [_ Hp]. }
  clear Hp. cbn [parser.preprocess].
  match goal with
  | |- obind (?items _) _ = _ =>
      assert (Hitems : items (map syntax.nest l) = Ok (map syntax.denote l))
  end.
  { induction IH as [|x l Hx _ IHl]; [reflexivity|].
    cbn [forallb] in Hl. apply andb_true_iff in Hl as [Hpx Hpl].
    destruct x as [t|l'].
    - cbn [map syntax.nest py.is_list py.is_str].
      assert (Hw : syntax.word t = true).
      { cbn [syntax.plain] in Hpx. unfold syntax.symbol in Hpx.
        now apply andb_true_iff in Hpx as [Hw _]. }
      rewrite (word_not_quote_mark t Hw), (retype_symbol t Hpx).
      cbn [obind]. rewrite (IHl Hpl). reflexivity.
    - cbn [map syntax.nest py.is_list].
      rewrite (Hx (or_introl Hpx)). cbn [obind]. rewrite (IHl Hpl). reflexivity. }
  rewrite Hitems. reflexivity.
Qed.

End round_trip.

Section parsing.
Context `{Host}.

Lemma syntax_check_flatten (es : list syntax.sexp) :
  forallb (syntax.atoms_are syntax.not_paren) es = true ->
  parser.syntax_check (syntax.flatten es) = Ok (syntax.flatten es).
Proof.
  intros Hes. unfold parser.syntax_check, parser.isperfectlybalanced.
  rewrite <- (app_nil_r (syntax.flatten es)) at 2.
  rewrite (balance_loop_flatten _ es Hes). reflexivity.
Qed.

Lemma plain_not_paren (es : list syntax.sexp) :
  forallb syntax.plain es = true ->
  forallb (syntax.atoms_are syntax.not_paren) es = true.
Proof.
  apply forallb_impl. intros e He.
  apply (atoms_are_impl syntax.word); [apply word_not_paren | apply plain_words, He].
Qed.

Lemma pop_map {A} (f : A -> value) (l : list A) :
  parser.pop (map f l)
  = match last l with
    | Some x => Ok (f x)
    | None => Err (Raised IndexError None)
    end.
Proof.
  unfold parser.pop. induction l as [|x [|y l] IH]; [reflexivity | reflexivity |].
  exact IH.
Qed.

Lemma parse_line (es : list syntax.sexp) :
  forallb syntax.plain es = true ->
  parser.parse (py.join " " (map syntax.text es))
  = match last es with
    | Some e => Ok (syntax.denote e)
    | None => Err (Raised IndexError None)
    end.
Proof.
  intros Hes. unfold parser.parse.
  rewrite OPAL_to_list_line by (revert Hes; apply forallb_impl, plain_words).
  rewrite (syntax_check_flatten es (plain_not_paren es Hes)). cbn [obind].
  unfold parser.lst_to_Python.
  rewrite (lst_to_Python_steps_flatten _ es (plain_not_paren es Hes)) by lia.
  cbn [obind]. rewrite (preprocess_plain es Hes). cbn [obind].
  apply pop_map.
Qed.

(** X18. Printing then parsing gives the expression back: for an expression
    made of symbols, the Boolean tokens and lists, none of which is a
    two-element list headed by [quote], [convert] returns its text and [parse]
    of that text returns the expression. *)
Theorem parse_inverts_convert (e : syntax.sexp) :
  syntax.plain e = true ->
  parser.convert (syntax.denote e) = Some (syntax.text e)
  /\ parser.parse (syntax.text e) = Ok (syntax.denote e).
Proof.
  intros He. split; [apply convert_plain; exact He|].
  change (syntax.text e) with (py.join " " (map syntax.text [e])).
  rewrite parse_line; [reflexivity|]. simpl. now rewrite He.
Qed.

(** X19. Of a line that holds several expressions, separated by one space,
    [parse] returns the last one and drops the others without a word; of the
    empty line it returns nothing: it raises [IndexError]. *)
Theorem parse_returns_the_last_expression (es : list syntax.sexp) (e : syntax.sexp) :
  forallb syntax.plain (es ++ [e]) = true ->
  parser.parse (py.join " " (map syntax.text (es ++ [e]))) = Ok (syntax.denote e)
  /\ parser.parse "" = Err (Raised IndexError None).
Proof.
  intros Hes. split.
  - rewrite (parse_line _ Hes), last_snoc. reflexivity.
  - exact (parse_line [] eq_refl).
Qed.

End parsing.


Section quote_marks.
Context `{Host}.

(** The items of a list that starts with plain expressions: they are typed
    one by one, and the rest of the list is processed after them. *)
Lemma preprocess_plain_prefix (es : list syntax.sexp) (tail : list value) :
  forallb syntax.plain es = true ->
  parser.preprocess (VList (map syntax.nest es ++ tail))
  = (let? r := parser.preprocess (VList tail) in
     match r with
     | VList t' => Ok (VList (map syntax.denote es ++ t'))
     | _ => Ok r
     end).
Proof.
  intros Hes. cbn [parser.preprocess].
  match goal with
  | |- obind (?items _) _ = _ => set (f := items)
  end.
  assert (Hitems : f (map syntax.nest es ++ tail)
                   = (let? t' := f tail in Ok (map syntax.denote es ++ t'))).
  { induction es as [|x es IH].
    - simpl. destruct (f tail); reflexivity.
    - cbn [forallb] in Hes. apply andb_true_iff in Hes as [Hpx Hpl].
      destruct x as [t|l'].
      + assert (Hw : syntax.word t = true).
        { cbn [syntax.plain] in Hpx. unfold syntax.symbol in Hpx.
          now apply andb_true_iff in Hpx as [Hw _]. }
        cbn [map app]. unfold f at 1. fold f.
        cbn [syntax.nest py.is_list py.is_str].
        rewrite (word_not_quote_mark t Hw), (retype_symbol t Hpx).
        cbn [obind]. rewrite (IH Hpl). destruct (f tail); reflexivity.
      + cbn [map app]. unfold f at 1. fold f.
        cbn [syntax.nest py.is_list].
        assert (Hl' : forallb syntax.plain l' = true).
        { cbn [syntax.plain] in Hpx. now apply andb_true_iff in Hpx as [_ Hl']. }
        rewrite (preprocess_plain l' Hl').
        cbn [obind]. rewrite (IH Hpl). destruct (f tail); reflexivity. }
  rewrite Hitems. destruct (f tail); reflexivity.
Qed.

(** A quote mark at the head of a list takes the element after it. *)
Lemma preprocess_quote_mark_step (x : value) (t : list value) :
  parser.preprocess (VList (VStr "'" :: x :: t))
  = (let? x' := parser.preprocess x in
     let? r := parser.preprocess (VList t) in
     match r with
     | VList t' => Ok (VList (VList [VStr "quote"; x'] :: t'))
     | _ => Ok r
     end).
Proof.
  simpl. destruct (parser.preprocess x) as [x'|e]; [|reflexivity].
  cbn [obind].
  match goal with
  | |- obind (obind ?items _) _ = _ => destruct items as [t'|e]; reflexivity
  end.
Qed.

(** X21. A quote mark stands for [quote] applied to the element that
    follows it: after plain expressions, the mark and the next element become
    the list [(quote x)], in which a list [x] is typed like any list and an
    atom [x] is left the string it was; a mark that nothing follows is an
    [IndexError]. *)
Theorem quote_mark_takes_the_next_element
  (before after : list syntax.sexp) (e : syntax.sexp) :
  forallb syntax.plain before = true ->
  syntax.plain e = true ->
  forallb syntax.plain after = true ->
  parser.preprocess
    (VList (map syntax.nest before ++ VStr "'" :: syntax.nest e :: map syntax.nest after))
  = Ok (VList (map syntax.denote before
               ++ VList [VStr "quote";
                         match e with
                         | syntax.Seq _ => syntax.denote e
                         | syntax.Sym t => VStr t
                         end]
               :: map syntax.denote after))
  /\ parser.preprocess (VList (map syntax.nest before ++ [VStr "'"]))
     = Err (Raised IndexError None).
Proof.
  intros Hb He Ha. split.
  - rewrite (preprocess_plain_prefix before _ Hb), preprocess_quote_mark_step.
    rewrite (preprocess_plain after Ha).
    destruct e as [t|l]; [reflexivity|].
    assert (Hl : forallb syntax.plain l = true).
    { cbn [syntax.plain] in He. now apply andb_true_iff in He as [_ Hl]. }
    cbn [syntax.nest syntax.denote]. rewrite (preprocess_plain l Hl). reflexivity.
  - rewrite (preprocess_plain_prefix before _ Hb). reflexivity.
Qed.

End quote_marks.

(** ** Construction of Closables *)

Lemma string_app_length (a b : string) :
  String.length (a +:+ b) = String.length a + String.length b.
Proof.
  induction a as [|c a IH]; [reflexivity|].
  change (String c a +:+ b) with (String c (a +:+ b)). simpl. now rewrite IH.
Qed.

Lemma string_app_inj_r (a b c : string) : a +:+ c = b +:+ c -> a = b.
Proof.
  revert b. induction a as [|x a IH]; intros [|y b] E.
  - reflexivity.
  - apply (f_equal String.length) in E.
    rewrite !string_app_length in E. simpl in E. lia.
  - apply (f_equal String.length) in E.
    rewrite !string_app_length in E. simpl in E. lia.
  - change (String x (a +:+ c) = String y (b +:+ c)) in E.
    injection E as -> E. f_equal. apply IH. exact E.
Qed.

Section construction.
Context `{Host}.

(** X22. Two Closables of the same type and name get the same identifier
    exactly when their random tags are equal: the tag alone tells them
    apart. *)
Theorem identifiers_collide_with_the_random_tags (type : string) (name : value) (s s' : state) :
  call.next_id type name s = call.next_id type name s'
  <-> randint (draws s) = randint (draws s').
Proof.
  unfold call.next_id. split.
  - intros E. apply String.app_inj in E.
    apply string_app_inj_r in E. apply (inj pretty) in E. exact E.
  - intros ->. reflexivity.
Qed.

(** X23. Constructing a Function never fails.  The object has the type
    [method] when it is built as one, else [lambda] when its name is
    ["lambda"], else [function]; a lambda is renamed after its parameters and
    body as [convert] prints them; the construction draws one random tag,
    registers an empty closure under the new identifier, replacing one that
    was registered under it, and touches no other entry of the registry, nor
    the active environment, nor the global store. *)
Theorem function_construction_registers_an_empty_closure
  (name parameters body : value) (isMethod : bool) (s : state) :
  exists type shown s',
    let id := call.next_id type name s in
    datatypes.Function_init name parameters body isMethod s
    = (Ok (VFunction type shown (datatypes.or_empty parameters) (datatypes.or_empty body) id), s')
    /\ type = (if isMethod then "method"
               else if py.is_str name "lambda" then "lambda" else "function")
    /\ (type <> "lambda" -> shown = name)
    /\ (type = "lambda" ->
        shown = VStr (parser.fmt (parser.convert (datatypes.or_empty parameters)) +:+ " "
                      +:+ parser.fmt (parser.convert (datatypes.or_empty body))))
    /\ CLOSURES s' !! id = Some []
    /\ (forall j, j <> id -> CLOSURES s' !! j = CLOSURES s !! j)
    /\ ENV s' = ENV s /\ GLOBALS s' = GLOBALS s /\ draws s' = S (draws s).
Proof.
  set (type := if isMethod then "method"
               else if py.is_str name "lambda" then "lambda" else "function").
  exists type.
  exists (if String.eqb type "lambda"
          then VStr (parser.fmt (parser.convert (datatypes.or_empty parameters)) +:+ " "
                     +:+ parser.fmt (parser.convert (datatypes.or_empty body)))
          else name).
  eexists. cbv zeta. split; [|split; [|split; [|split; [|split; [|split; [|split; [|split]]]]]]].
  - unfold datatypes.Function_init. fold type.
    rewrite (bind_ok _ _ _ _ _ (Closable_init_result type name parameters body s)).
    reflexivity.
  - reflexivity.
  - intros Hne. destruct (String.eqb type "lambda") eqn:E; [|reflexivity].
    apply String.eqb_eq in E. contradiction.
  - intros ->. reflexivity.
  - simpl. apply lookup_insert_eq.
  - intros j Hj. simpl. apply lookup_insert_ne. congruence.
  - reflexivity.
  - reflexivity.
  - reflexivity.
Qed.

End construction.

Section instantiation.
Context `{Host} `{Absent}.

(** X24. An instantiation with a number of arguments other than the number
    of constructor parameters fails when the parameters are matched (with the
    error of [match_arguments]), before the template's closure is read and
    before any initialization statement runs; by then the instance has been
    constructed: a random tag is drawn and an empty closure stays registered
    under the identifier of the instance that is not returned. *)
Theorem failed_instantiation_leaves_an_empty_closure
  (name parameters init args : value) (id : string) (s : state) (ps a : list value) :
  py.iter (datatypes.or_empty parameters) = Ok ps ->
  py.iter args = Ok a ->
  length ps <> length a ->
  exists e s',
    datatypes.Template_new name parameters id init args s = (Err e, s')
    /\ environment.match_arguments ps a [] = Err e
    /\ CLOSURES s' = <[call.next_id "instance" name s := []]> (CLOSURES s)
    /\ draws s' = S (draws s) /\ ENV s' = ENV s /\ GLOBALS s' = GLOBALS s.
Proof.
  intros Hp Ha Hl.
  assert (Hm : environment.match_arguments ps a [] = Err (Raised ArityError None)).
  { unfold environment.match_arguments.
    destruct (Nat.eqb (length ps) (length a)) eqn:E; [|reflexivity].
    apply Nat.eqb_eq in E. contradiction. }
  eexists. eexists. split; [|split; [exact Hm|]].
  - unfold datatypes.Template_new. apply bind_err.
    unfold datatypes.Instance_init.
    rewrite (bind_ok _ _ _ _ _ (Closable_init_result _ _ _ _ _)).
    apply bind_err. unfold environment.on_closure.
    erewrite bind_ok; [|apply closure_some; simpl; apply lookup_insert_eq].
    rewrite Hp, Ha. cbn [obind]. rewrite Hm. reflexivity.
  - repeat split; reflexivity.
Qed.

End instantiation.

Lemma split_loop_space (l1 l2 : list ascii) (c : ascii) :
  parser.is_space c = true ->
  forall word,
    parser.split_loop word (l1 ++ c :: l2)
    = parser.split_loop word l1 ++ parser.split_loop [] l2.
Proof.
  intros Hc. induction l1 as [|x l1 IH]; intros word; simpl.
  - now rewrite Hc.
  - destruct (parser.is_space x); [|apply IH].
    rewrite IH. now rewrite app_assoc.
Qed.

Lemma padded_app (a b : string) :
  flat_map syntax.pad_char (list_ascii_of_string (a +:+ b))
  = flat_map syntax.pad_char (list_ascii_of_string a)
    ++ flat_map syntax.pad_char (list_ascii_of_string b).
Proof. now rewrite list_ascii_app, flat_map_app. Qed.

(** X25. The tokenizer works piece by piece: the tokens of two pieces of
    text set apart by a whitespace character are the tokens of the first
    followed by the tokens of the second, and a parenthesis or a quote mark
    between two pieces is a token of its own between their tokens, with or
    without spaces around it. *)
Theorem tokenizer_splits_at_spaces_and_marks (a b : string) (c : ascii) :
  parser.is_space c = true \/ c = "("%char \/ c = ")"%char \/ c = "'"%char ->
  parser.OPAL_to_list (a +:+ String c b)
  = parser.OPAL_to_list a
    ++ (if parser.is_space c then [] else [String c EmptyString])
    ++ parser.OPAL_to_list b.
Proof.
  intros Hc. unfold parser.OPAL_to_list, parser.split. rewrite !padded.
  change (String c b) with (String c EmptyString +:+ b). rewrite !padded_app.
  destruct Hc as [Hs|Hp].
  - rewrite Hs. cbn [list_ascii_of_string flat_map]. rewrite (space_pad c Hs), app_nil_r.
    cbn [app]. apply split_loop_space. exact Hs.
  - assert (Hpad : flat_map syntax.pad_char (list_ascii_of_string (String c EmptyString))
                   = [" "%char; c; " "%char] /\ parser.is_space c = false).
    { destruct Hp as [->|[->| ->]]; split; reflexivity. }
    destruct Hpad as [-> Hns]. rewrite Hns. cbn [app].
    rewrite (split_loop_space _ _ " "%char eq_refl). f_equal.
    cbn [parser.split_loop]. rewrite Hns.
    change (parser.split_loop [c] (" "%char :: ?x))
      with (parser.flush [c] ++ parser.split_loop [] x).
    reflexivity.
Qed.

(** ** Complete lines *)

Lemma balance_loop_counts (expr rest : list string) :
  forall k k',
    parser.balance_loop expr rest k = Ok k' ->
    k + count_occ string_dec rest "(" = k' + count_occ string_dec rest ")".
Proof.
  induction rest as [|t rest IH]; intros k k'; simpl.
  - intros E. injection E as <-. reflexivity.
  - destruct (String.eqb t "(") eqn:Eo.
    + apply String.eqb_eq in Eo. subst t. intros E. apply IH in E.
      destruct (string_dec "(" "("); [|contradiction].
      destruct (string_dec "(" ")"); [discriminate|]. lia.
    + destruct (String.eqb t ")") eqn:Ec.
      * apply String.eqb_eq in Ec. subst t.
        destruct k as [|k]; [discriminate|]. intros E. apply IH in E.
        destruct (string_dec ")" "("); [discriminate|].
        destruct (string_dec ")" ")"); [|contradiction]. lia.
      * apply String.eqb_neq in Eo, Ec. intros E. apply IH in E.
        destruct (string_dec t "("); [contradiction|].
        destruct (string_dec t ")"); [contradiction|]. exact E.
Qed.

Lemma flush_counts (word : list ascii) (c : ascii) :
  forallb (fun x => negb (syntax.is_delimiter x)) word = true ->
  syntax.is_delimiter c = true ->
  count_occ string_dec (parser.flush word) (String c EmptyString) = 0.
Proof.
  intros Hw Hc. destruct word as [|x w]; [reflexivity|].
  unfold parser.flush. simpl count_occ.
  destruct (string_dec _ _) as [E|]; [|reflexivity]. exfalso.
  apply (f_equal list_ascii_of_string) in E.
  rewrite list_ascii_of_string_of_list_ascii in E. simpl in E.
  apply (f_equal (@rev ascii)) in E. rewrite rev_app_distr, rev_involutive in E.
  simpl in E. injection E as -> _. simpl in Hw. rewrite Hc in Hw. discriminate Hw.
Qed.

Lemma split_loop_counts (c : ascii) (l : list ascii) :
  c = "("%char \/ c = ")"%char ->
  forall word,
    forallb (fun x => negb (syntax.is_delimiter x)) word = true ->
    count_occ string_dec (parser.split_loop word (flat_map syntax.pad_char l))
      (String c EmptyString)
    = count_occ ascii_dec l c.
Proof.
  intros Hc.
  assert (Hd : syntax.is_delimiter c = true) by (destruct Hc as [->| ->]; reflexivity).
  induction l as [|x l IH]; intros word Hw.
  - simpl. apply flush_counts; assumption.
  - cbn [flat_map count_occ].
    destruct (syntax.is_delimiter x) eqn:Ex.
    + apply delimiter_cases in Ex as [Es|Ep].
      * rewrite (space_pad x Es). simpl. rewrite Es, count_occ_app.
        rewrite (flush_counts word c Hw Hd), (IH [] eq_refl).
        destruct (ascii_dec x c) as [->|]; [|reflexivity].
        destruct Hc as [->| ->]; discriminate Es.
      * assert (Hpad : parser.split_loop word (syntax.pad_char x ++ flat_map syntax.pad_char l)
                       = parser.flush word ++ [String x EmptyString]
                         ++ parser.split_loop [] (flat_map syntax.pad_char l)).
        { destruct Ep as [->|[->| ->]]; reflexivity. }
        rewrite Hpad, !count_occ_app, (flush_counts word c Hw Hd), (IH [] eq_refl).
        simpl. destruct (string_dec (String x "") (String c "")) as [E|E];
          destruct (ascii_dec x c) as [E'|E']; reflexivity.
    + destruct (not_delimiter x Ex) as [Es ->]. simpl. rewrite Es.
      rewrite IH by (simpl; now rewrite Ex).
      destruct (ascii_dec x c) as [->|]; [|reflexivity].
      rewrite Hd in Ex. discriminate Ex.
Qed.

Lemma OPAL_to_list_counts (s : string) (c : ascii) :
  c = "("%char \/ c = ")"%char ->
  count_occ string_dec (parser.OPAL_to_list s) (String c EmptyString)
  = parser.count_char c s.
Proof.
  intros Hc. unfold parser.OPAL_to_list, parser.split, parser.count_char.
  rewrite padded. apply split_loop_counts; [exact Hc | reflexivity].
Qed.

(** X26. The test for complete lines agrees with the syntax check: a line
    whose tokens [syntax_check] accepts, and that holds no ["@start"], is
    complete; a line [iscomplete] rejects as fatal has tokens that
    [syntax_check] rejects. *)
Theorem complete_lines_and_balanced_tokens (s : string) :
  (forall tokens,
     parser.syntax_check (parser.OPAL_to_list s) = Ok tokens ->
     parser.contains "@start" s = false ->
     parser.iscomplete s = Ok true)
  /\ (forall e,
        parser.iscomplete s = Err e ->
        exists e', parser.syntax_check (parser.OPAL_to_list s) = Err e').
Proof.
  assert (Hbal : forall tokens,
            parser.syntax_check (parser.OPAL_to_list s) = Ok tokens ->
            parser.count_char "(" s = parser.count_char ")" s).
  { intros tokens. unfold parser.syntax_check, parser.isperfectlybalanced.
    destruct (parser.balance_loop _ _ 0) as [k|e] eqn:E; simpl; [|discriminate].
    destruct k; simpl; [|discriminate]. intros _.
    apply balance_loop_counts in E.
    rewrite (OPAL_to_list_counts s "(" (or_introl eq_refl)) in E.
    rewrite (OPAL_to_list_counts s ")" (or_intror eq_refl)) in E. exact E. }
  split.
  - intros tokens Hok Hstart. unfold parser.iscomplete.
    rewrite (Hbal tokens Hok), Nat.ltb_irrefl, Hstart, Nat.eqb_refl. reflexivity.
  - intros e. unfold parser.iscomplete.
    destruct (Nat.ltb _ _) eqn:Elt; [|discriminate]. intros _.
    destruct (parser.syntax_check (parser.OPAL_to_list s)) as [tokens|e'] eqn:Ec;
      [|eexists; reflexivity].
    pose proof (Hbal _ eq_refl) as Hb. apply Nat.ltb_lt in Elt. lia.
Qed.

(** ** The failures of parse *)

Section failures.
Context `{Host}.








End failures.




(** ** Instances *)

Lemma car_and_cdr_invert_cons_witness :
  py.is_list (VList [VInt 2; VInt 3]) = true
  /\ @keywords.head evaluator.example_host (VList [VInt 1; VInt 2; VInt 3]) = Ok (VInt 1)
  /\ @keywords.tail evaluator.example_host (VList [VInt 1; VInt 2; VInt 3])
     = Ok (VList [VInt 2; VInt 3])
  /\ keywords.ref (VList [VInt 1; VInt 2; VInt 3]) (VInt 0) = Ok (VInt 1)
  /\ keywords.isnull (VList [VInt 1; VInt 2; VInt 3]) = false.
Proof.
  apply (@car_and_cdr_invert_cons evaluator.example_host (VInt 1) (VList [VInt 2; VInt 3])).
  reflexivity.
Defined.

Lemma cdr_of_empty_sequence_is_empty_witness :
  @keywords.tail evaluator.example_host (VList []) = Ok (VList [])
  /\ @keywords.head evaluator.example_host (VList [])
     = Err (@spec.car_error evaluator.example_host (VList [])).
Proof.
  apply (@cdr_of_empty_sequence_is_empty evaluator.example_host (VList [])).
  reflexivity.
Defined.

Lemma cdr_shifts_the_elements_witness :
  exists t,
    @keywords.tail evaluator.example_host (VStr "abc") = Ok t
    /\ py.is_list t = py.is_list (VStr "abc")
    /\ (forall i, py.getitem t i = py.getitem (VStr "abc") (S i))
    /\ (forall x, py.getitem (VStr "abc") 0 = Ok x ->
          @keywords.head evaluator.example_host (VStr "abc") = Ok x).
Proof.
  apply (@cdr_shifts_the_elements evaluator.example_host (VStr "abc")).
  reflexivity.
Defined.

Lemma evcxr_composes_witness :
  @keywords.evcxr evaluator.example_host ("a" +:+ "dd") (VList [VInt 1; VInt 2; VInt 3])
  = (let? w := @keywords.evcxr evaluator.example_host "dd" (VList [VInt 1; VInt 2; VInt 3]) in
     @keywords.evcxr evaluator.example_host "a" w).
Proof.
  apply (@evcxr_composes evaluator.example_host "a" "dd" (VList [VInt 1; VInt 2; VInt 3]));
    reflexivity.
Defined.

Lemma cond_takes_the_first_true_clause_witness :
  @keywords.cond examples.absent
    (examples.false_clauses ++ examples.true_clause :: [VList [VStr "unbound"; VInt 8]])
    (examples.initial [] [])
  = (let! body := lift (py.getitem examples.true_clause 1) in
     @evaluate examples.absent body) (examples.initial [] []).
Proof.
  apply (@cond_takes_the_first_true_clause examples.absent
           examples.false_clauses [VList [VStr "unbound"; VInt 8]]
           examples.true_clause (VBool true) (VBool true)
           (examples.initial [] []) (examples.initial [] []) (examples.initial [] [])).
  - repeat (eapply spec.acf_cons; [reflexivity | reflexivity | reflexivity | reflexivity |]).
    apply spec.acf_nil.
  - reflexivity.
  - right. split; [reflexivity|]. split; reflexivity.
Defined.

Lemma repeat_evaluates_the_body_count_times_witness :
  (forall z, VInt 0 = VInt z -> (z <= 0)%Z ->
     @keywords.repeat examples.absent (VInt 0) (VStr "unbound") (examples.initial [] [])
     = (Ok VNone, examples.initial [] []))
  /\ (keywords.range_count (VInt 0) = Err (Raised TypeError None) ->
      @keywords.repeat examples.absent (VInt 0) (VStr "unbound") (examples.initial [] [])
      = (Err (Raised TypeError None), examples.initial [] []))
  /\ ((forall s0, ENV s0 = [] -> ENV (snd (@evaluate examples.absent (VStr "unbound") s0)) = []) ->
      ENV (examples.initial [] []) = [] ->
      ENV (snd (@keywords.repeat examples.absent (VInt 0) (VStr "unbound")
                  (examples.initial [] []))) = []).
Proof.
  apply (@repeat_evaluates_the_body_count_times examples.absent
           (VInt 0) (VStr "unbound") (VInt 0)
           (examples.initial [] []) (examples.initial [] []) (fun s => ENV s = [])).
  reflexivity.
Defined.

Lemma global_write_then_read_witness :
  exists s2,
    @keywords.globals examples.absent (VStr "x") (VInt 5) (examples.initial [] [])
    = (Ok VNone, s2)
    /\ @keywords.globals examples.absent (VStr "x") VNone s2 = (Ok (VInt 5), s2)
    /\ (forall k, py.eqb (VStr "x") k = false ->
          py.dict_get (GLOBALS s2) k = py.dict_get (GLOBALS (examples.initial [] [])) k)
    /\ ENV s2 = ENV (examples.initial [] [])
    /\ CLOSURES s2 = CLOSURES (examples.initial [] []).
Proof.
  apply (@global_write_then_read examples.absent "x" (VInt 5) (VInt 5)
           (examples.initial [] []) (examples.initial [] [])); reflexivity.
Defined.

Lemma boolean_tokens_convert_alike_witness :
  @parser.retype evaluator.example_host (VStr "#f") = Ok (keywords.rebool (VStr "#f"))
  /\ keywords.rebool (VStr "#f") = VBool (py.is_str (VStr "#f") "#t")
  /\ keywords.isbool (VStr "#f") = true
  /\ keywords.isbool (keywords.rebool (VStr "#f")) = true
  /\ keywords.rebool (keywords.rebool (VStr "#f")) = keywords.rebool (VStr "#f").
Proof.
  apply (@boolean_tokens_convert_alike evaluator.example_host (VStr "#f")). reflexivity.
Defined.

Lemma get_opp_par_finds_the_closing_parenthesis_witness :
  parser.get_opp_par (syntax.tokens examples.written ++ ["b"])
  = Some (S (length (syntax.flatten
                       [syntax.Sym "f"; syntax.Sym "#t"; syntax.Seq [syntax.Sym "x"]])))
  /\ parser.get_opp_par ("a" :: ["b"]) = Some 0.
Proof.
  destruct (get_opp_par_finds_the_closing_parenthesis
              [syntax.Sym "f"; syntax.Sym "#t"; syntax.Seq [syntax.Sym "x"]] "a" ["b"]
              eq_refl eq_refl) as (E1 & _ & E2 & _).
  split; [exact E1 | exact E2].
Defined.

Lemma parse_inverts_convert_witness :
  @parser.convert evaluator.example_host (syntax.denote examples.written)
  = Some (syntax.text examples.written)
  /\ @parser.parse evaluator.example_host (syntax.text examples.written)
     = Ok (syntax.denote examples.written).
Proof.
  apply (@parse_inverts_convert evaluator.example_host examples.written).
  vm_compute. reflexivity.
Defined.

Lemma parse_returns_the_last_expression_witness :
  @parser.parse evaluator.example_host
    (py.join " " (map syntax.text ([examples.written] ++ [syntax.Sym "y"])))
  = Ok (syntax.denote (syntax.Sym "y"))
  /\ @parser.parse evaluator.example_host "" = Err (Raised IndexError None).
Proof.
  apply (@parse_returns_the_last_expression evaluator.example_host
           [examples.written] (syntax.Sym "y")).
  vm_compute. reflexivity.
Defined.


Lemma quote_mark_takes_the_next_element_witness :
  @parser.preprocess evaluator.example_host
    (VList (map syntax.nest [syntax.Sym "f"]
            ++ VStr "'" :: syntax.nest (syntax.Sym "#t") :: map syntax.nest [examples.written]))
  = Ok (VList (map syntax.denote [syntax.Sym "f"]
               ++ VList [VStr "quote"; VStr "#t"]
               :: map syntax.denote [examples.written]))
  /\ @parser.preprocess evaluator.example_host
       (VList (map syntax.nest [syntax.Sym "f"] ++ [VStr "'"]))
     = Err (Raised IndexError None).
Proof.
  apply (@quote_mark_takes_the_next_element evaluator.example_host
           [syntax.Sym "f"] [examples.written] (syntax.Sym "#t"));
    vm_compute; reflexivity.
Defined.

Lemma failed_instantiation_leaves_an_empty_closure_witness :
  exists e s',
    @datatypes.Template_new evaluator.example_host examples.absent
      (VStr "T") (VList [VStr "x"]) "ID:0.template.T" VNone (VList [])
      (examples.initial [] ["ID:0.template.T"]) = (Err e, s')
    /\ environment.match_arguments [VStr "x"] [] [] = Err e
    /\ CLOSURES s'
       = <[@call.next_id evaluator.example_host "instance" (VStr "T")
             (examples.initial [] ["ID:0.template.T"]) := []]>
           (CLOSURES (examples.initial [] ["ID:0.template.T"]))
    /\ draws s' = S (draws (examples.initial [] ["ID:0.template.T"]))
    /\ ENV s' = ENV (examples.initial [] ["ID:0.template.T"])
    /\ GLOBALS s' = GLOBALS (examples.initial [] ["ID:0.template.T"]).
Proof.
  apply (@failed_instantiation_leaves_an_empty_closure evaluator.example_host examples.absent
           (VStr "T") (VList [VStr "x"]) VNone (VList []) "ID:0.template.T"
           (examples.initial [] ["ID:0.template.T"]) [VStr "x"] []).
  - reflexivity.
  - reflexivity.
  - simpl. lia.
Defined.

Lemma tokenizer_splits_at_spaces_and_marks_witness :
  parser.OPAL_to_list ("(car" +:+ String "'" "(1 2))")
  = parser.OPAL_to_list "(car"
    ++ (if parser.is_space "'" then [] else [String "'" EmptyString])
    ++ parser.OPAL_to_list "(1 2))".
Proof.
  apply (tokenizer_splits_at_spaces_and_marks "(car" "(1 2))" "'").
  right. right. right. reflexivity.
Defined.

